(** * run-eval: the eval runner script, embedded and verified

    A shallow embedding of [run-eval.mjs]: the URL normalisation, the text
    utilities, the API client, the poll loop, the two report renderers and
    the run of the script.

    JavaScript data is modelled as it is at run time:
    - a number is an IEEE 754 binary64 value (Rocq's primitive [float]);
    - a string is a [string]; one character stands for one UTF-16 code unit,
      so [String.length] is the script's [.length];
    - a JSON document is a [value]; an object keeps its properties in
      insertion order, with distinct keys.

    A function of the script that may throw returns a [result]: reading a
    property of [null] throws, and so does converting to text, for a
    template literal or a property key, an object that has a property
    [toString] of its own. *)

From Stdlib Require Import List Bool Ascii String ZArith QArith Qabs Qround Lia.
From Stdlib Require Import Floats Uint63 Permutation.
Import ListNotations.

Set Warnings "-register-all".

Local Open Scope string_scope.
Local Open Scope Z_scope.

(* ================================================================= *)
(** ** Strings *)

Module Str.

(** [separator.join]: [Array.prototype.join] on strings. *)
Definition join (sep : string) (parts : list string) : string :=
  String.concat sep parts.

(** [s.endsWith(suffix)]. *)
Definition endsWith (s suffix : string) : bool :=
  let ls := String.length s in
  let lx := String.length suffix in
  (lx <=? ls)%nat && String.eqb (String.substring (ls - lx) lx s) suffix.

(** [s.slice(0, -n)]: everything but the last [n] code units. *)
Definition dropLast (n : nat) (s : string) : string :=
  String.substring 0 (String.length s - n) s.

(** [s.substring(0, e)]: a negative end counts as 0, one past the end as
    the length. *)
Definition substring0 (e : Z) (s : string) : string :=
  String.substring 0 (Z.to_nat e) s.

(** [c.repeat(n)] for a one-character string. *)
Fixpoint repeat (c : ascii) (n : nat) : string :=
  match n with
  | O => EmptyString
  | S n' => String c (repeat c n')
  end.

(** The decimal digits of a natural number, most significant first. *)
Definition digit (d : Z) : ascii := ascii_of_nat (48 + Z.to_nat d).

Fixpoint digits_fuel (fuel : nat) (n : Z) (acc : string) : string :=
  match fuel with
  | O => acc
  | S fuel' =>
      let acc' := String (digit (n mod 10)) acc in
      if n <? 10 then acc' else digits_fuel fuel' (n / 10) acc'
  end.

Definition of_Z_digits (n : Z) : string :=
  digits_fuel (S (Z.to_nat (Z.log2 n))) n EmptyString.

(** A signed integer in decimal. *)
Definition of_Z (n : Z) : string :=
  if n <? 0 then "-" ++ of_Z_digits (- n) else of_Z_digits n.

End Str.

(* ================================================================= *)
(** ** Numbers: [Number::toString] and [Number.prototype.toFixed] *)

Module Num.

Local Open Scope Q_scope.

Definition pow10 (n : Z) : Q := Qpower (10 # 1) n.
Definition pow2 (n : Z) : Q := Qpower (2 # 1) n.

Definition Qleb (a b : Q) : bool := Qle_bool a b.
Definition Qltb (a b : Q) : bool := negb (Qle_bool b a).

(** The exact value of a positive finite double [m * 2^e]. *)
Definition exact (m : positive) (e : Z) : Q := inject_Z (Zpos m) * pow2 e.

(** The reals that round to [m * 2^e]: from half way to the double below
    to half way to the double above, ends included when [m] is even
    (round to nearest, ties to even). *)
Definition below_gap (m : positive) (e : Z) : Q :=
  if (Zpos m =? 4503599627370496)%Z && (-1074 <? e)%Z
  then pow2 (e - 1) else pow2 e.

Definition rounds_to (m : positive) (e : Z) (c : Q) : bool :=
  let x := exact m e in
  let lo := x - below_gap m e / 2 in
  let hi := x + pow2 e / 2 in
  if Z.even (Zpos m) then Qleb lo c && Qleb c hi
  else Qltb lo c && Qltb c hi.

(** [n] with [10^(n-1) <= x < 10^n]. *)
Definition in_decade (x : Q) (n : Z) : bool :=
  Qleb (pow10 (n - 1)) x && Qltb x (pow10 n).

Definition decade (m : positive) (e : Z) : Z :=
  let x := exact m e in
  let est := ((Z.log2 (Zpos m) + e) * 30103 / 100000)%Z in
  match find (in_decade x)
          (map (fun d => (est + d)%Z) [-2; -1; 0; 1; 2; 3; 4]%Z) with
  | Some n => n
  | None => est
  end.

Definition Qdist (a b : Q) : Q := Qabs (a - b).

(** The shortest decimal [s * 10^(n-k)] with [k] digits that rounds to the
    double; of two with the same [k], the nearer one, and the even one
    when they are as near. *)
Fixpoint shortest (fuel : nat) (m : positive) (e : Z) (n k : Z) : Z * Z :=
  let x := exact m e in
  let scale := pow10 (n - k) in
  let s1 := Qfloor (x / scale) in
  let s2 := (s1 + 1)%Z in
  let c1 := inject_Z s1 * scale in
  let c2 := inject_Z s2 * scale in
  let pick :=
    match rounds_to m e c1, rounds_to m e c2 with
    | true, true =>
        if Qltb (Qdist c1 x) (Qdist c2 x) then Some s1
        else if Qltb (Qdist c2 x) (Qdist c1 x) then Some s2
        else Some (if Z.even s1 then s1 else s2)
    | true, false => Some s1
    | false, true => Some s2
    | false, false => None
    end in
  match pick, fuel with
  | Some s, _ => (s, k)
  | None, S fuel' => shortest fuel' m e n (k + 1)
  | None, O => (s1, k)
  end.

(** The digits, their number [k] and the decimal exponent [n] of a
    positive finite double. *)
Definition decimal (m : positive) (e : Z) : string * Z * Z :=
  let n := decade m e in
  let '(s, k) := shortest 17 m e n 1 in
  if Qleb (pow10 k) (inject_Z s)
  then (Str.of_Z_digits (s / 10), k, (n + 1)%Z)
  else (Str.of_Z_digits s, k, n).

Local Open Scope Z_scope.

(** The layout of [Number::toString] for the digits [ds] ([k] of them)
    and the exponent [n]. *)
Definition layout (ds : string) (k n : Z) : string :=
  if (k <=? n) && (n <=? 21) then
    ds ++ Str.repeat "0" (Z.to_nat (n - k))
  else if (0 <? n) && (n <=? 21) then
    String.substring 0 (Z.to_nat n) ds ++ "." ++
    String.substring (Z.to_nat n) (Z.to_nat (k - n)) ds
  else if (-6 <? n) && (n <=? 0) then
    "0." ++ Str.repeat "0" (Z.to_nat (- n)) ++ ds
  else
    let ex := (if 0 <=? n - 1 then "+" else "-") ++ Str.of_Z_digits (Z.abs (n - 1)) in
    if k =? 1 then ds ++ "e" ++ ex
    else String.substring 0 1 ds ++ "." ++
         String.substring 1 (Z.to_nat (k - 1)) ds ++ "e" ++ ex.

(** [Number::toString(x)] in radix 10, what a template literal and string
    concatenation apply to a number. *)
Definition toString (x : float) : string :=
  match Prim2SF x with
  | S754_nan => "NaN"
  | S754_zero _ => "0"
  | S754_infinity neg => if neg then "-Infinity" else "Infinity"
  | S754_finite neg m e =>
      let '(ds, k, n) := decimal m e in
      (if neg then "-" else "") ++ layout ds k n
  end.

(** [x.toFixed(f)]: the integer [n] nearest to [x * 10^f] (the larger of
    two as near), written with [f] decimals; [toString] from 1e21 on and
    for values that are not finite. *)
Definition fixed_digits (f : nat) (n : Z) : string :=
  let ds := Str.of_Z_digits n in
  if (f =? 0)%nat then ds
  else
    let k := String.length ds in
    let ds := if (k <=? f)%nat then Str.repeat "0" (f + 1 - k) ++ ds else ds in
    let k := String.length ds in
    String.substring 0 (k - f) ds ++ "." ++ String.substring (k - f) f ds.

Definition toFixed (f : nat) (x : float) : string :=
  match Prim2SF x with
  | S754_finite neg m e =>
      let q := exact m e in
      if Qleb (pow10 21) q then toString x
      else
        let n := Qfloor (q * pow10 (Z.of_nat f) + (1 # 2))%Q in
        (if neg then "-" else "") ++ fixed_digits f n
  | S754_zero _ => fixed_digits f 0
  | _ => toString x
  end.

(** The number that is the length of an array or a string. *)
Definition of_nat (n : nat) : float :=
  PrimFloat.of_uint63 (Uint63.of_Z (Z.of_nat n)).

End Num.

(* ================================================================= *)
(** ** Exceptions *)

Inductive error : Type :=
| FetchFailed (message : string)
    (* fetch rejected: no response *)
| RequestFailed (status : Z) (statusText errorText : string)
    (* 'API request failed: status statusText ... Response: errorText' *)
| SyntaxError
    (* response.json() rejected: the body is not JSON *)
| TypeError
    (* a property of null or undefined was read, a value that is not a
       function was called, or an object could not be converted to text *)
| MaximumWaitExceeded.
    (* 'Maximum wait time exceeded (...)' *)

Inductive result (A : Type) : Type :=
| Ok (a : A)
| Throw (e : error).

Arguments Ok {A} a.
Arguments Throw {A} e.

Definition bind {A B : Type} (r : result A) (k : A -> result B) : result B :=
  match r with
  | Ok a => k a
  | Throw e => Throw e
  end.

Notation "x <- r ;; k" := (bind r (fun x => k))
  (at level 61, r at next level, right associativity).

(** [items.map(f)] for a callback that may throw. *)
Fixpoint mapR {A B : Type} (f : A -> result B) (items : list A) : result (list B) :=
  match items with
  | [] => Ok []
  | a :: rest =>
      b <- f a ;;
      bs <- mapR f rest ;;
      Ok (b :: bs)
  end.

(** [items.filter(f)] for a callback that may throw. *)
Fixpoint filterR {A : Type} (f : A -> result bool) (items : list A) : result (list A) :=
  match items with
  | [] => Ok []
  | a :: rest =>
      keep <- f a ;;
      kept <- filterR f rest ;;
      Ok (if keep then a :: kept else kept)
  end.

(* ================================================================= *)
(** ** JSON values and the operators the script applies to them *)

(** The characters that cannot be written inside a string literal. *)
Definition nl : string := String (ascii_of_nat 10) EmptyString.
Definition dquote : string := String (ascii_of_nat 34) EmptyString.

Inductive value : Type :=
| VUndefined
| VNull
| VBool (b : bool)
| VNum (x : float)
| VStr (s : string)
| VArr (items : list value)
| VObj (props : list (string * value)).

(** A JSON object: its own properties, in insertion order. *)
Definition obj : Type := list (string * value).

Fixpoint lookup {A : Type} (k : string) (props : list (string * A)) : option A :=
  match props with
  | [] => None
  | (k', v) :: rest => if String.eqb k k' then Some v else lookup k rest
  end.

(** [v.k] for the property names this script reads (none of them is a
    property of a prototype): the own property, [undefined] when there is
    none. On [null] and [undefined] the access throws; see [member]. *)
Definition get (v : value) (k : string) : value :=
  match v with
  | VObj props =>
      match lookup k props with
      | Some x => x
      | None => VUndefined
      end
  | _ => VUndefined
  end.

(** [!!v]. *)
Definition truthy (v : value) : bool :=
  match v with
  | VUndefined | VNull => false
  | VBool b => b
  | VNum x => negb (PrimFloat.eqb x 0 || PrimFloat.is_nan x)
  | VStr s => negb (String.eqb s "")
  | VArr _ | VObj _ => true
  end.

(** [a || b]. *)
Definition js_or (a b : value) : value := if truthy a then a else b.

(** [v === null || v === undefined]. *)
Definition nullish (v : value) : bool :=
  match v with
  | VUndefined | VNull => true
  | _ => false
  end.

(** [v === 'text']. *)
Definition is_string (text : string) (v : value) : bool :=
  match v with
  | VStr s => String.eqb s text
  | _ => false
  end.

(** SameValueZero, the comparison of [Array.prototype.includes]. Arrays and
    objects are equal to themselves only, and two parsed documents share
    none. *)
Definition sameValueZero (a b : value) : bool :=
  match a, b with
  | VUndefined, VUndefined => true
  | VNull, VNull => true
  | VBool x, VBool y => Bool.eqb x y
  | VNum x, VNum y => PrimFloat.eqb x y || (PrimFloat.is_nan x && PrimFloat.is_nan y)
  | VStr x, VStr y => String.eqb x y
  | _, _ => false
  end.

Definition includes (l : list value) (v : value) : bool :=
  existsb (fun a => sameValueZero a v) l.

(** *** The order of an object's own keys

    [Object.keys] and [for ... in] list the keys that are array indices
    first, in increasing order, then the other keys as they were inserted. *)

Fixpoint parse_digits (s : string) (acc : Z) : option Z :=
  match s with
  | EmptyString => Some acc
  | String c rest =>
      let d := Z.of_nat (nat_of_ascii c) - 48 in
      if (0 <=? d) && (d <=? 9) then parse_digits rest (10 * acc + d) else None
  end.

Definition array_index (k : string) : option Z :=
  match k with
  | EmptyString => None
  | _ =>
      match parse_digits k 0 with
      | Some n =>
          if String.eqb (Str.of_Z_digits n) k && (n <=? 4294967294)
          then Some n else None
      | None => None
      end
  end.

Fixpoint insert_index {A : Type} (n : Z) (p : string * A)
    (sorted : list (Z * (string * A))) : list (Z * (string * A)) :=
  match sorted with
  | [] => [(n, p)]
  | (m, q) :: rest =>
      if n <? m then (n, p) :: sorted else (m, q) :: insert_index n p rest
  end.

Fixpoint index_keys {A : Type} (props : list (string * A)) : list (Z * (string * A)) :=
  match props with
  | [] => []
  | p :: rest =>
      match array_index (fst p) with
      | Some n => insert_index n p (index_keys rest)
      | None => index_keys rest
      end
  end.

Definition is_index (k : string) : bool :=
  match array_index k with
  | Some _ => true
  | None => false
  end.

Definition own_order {A : Type} (props : list (string * A)) : list (string * A) :=
  map snd (index_keys props) ++ filter (fun p => negb (is_index (fst p))) props.

(** *** Conversion to text *)

(** [v.k] where [v] may be anything. *)
Definition member (v : value) (k : string) : result value :=
  if nullish v then Throw TypeError else Ok (get v k).

(** [v.length] for a value that is not [null] or [undefined]: the length of
    an array or a string, the property of that name of an object. *)
Definition lengthOf (v : value) : value :=
  match v with
  | VArr items => VNum (Num.of_nat (List.length items))
  | VStr s => VNum (Num.of_nat (String.length s))
  | _ => get v "length"
  end.

(** [`${v}`] and the key of [table[v]]: ToString. An array joins its
    elements with a comma, [null] and [undefined] elements as nothing. An
    object is ["[object Object]"], unless it has a property [toString] of
    its own: no JSON value can be called, [valueOf] gives the object back,
    and the conversion throws a TypeError. *)
Fixpoint toStr (v : value) : result string :=
  match v with
  | VUndefined => Ok "undefined"
  | VNull => Ok "null"
  | VBool b => Ok (if b then "true" else "false")
  | VNum x => Ok (Num.toString x)
  | VStr s => Ok s
  | VArr items =>
      parts <- (fix each (l : list value) : result (list string) :=
                  match l with
                  | [] => Ok []
                  | e :: rest =>
                      part <- (if nullish e then Ok "" else toStr e) ;;
                      parts <- each rest ;;
                      Ok (part :: parts)
                  end) items ;;
      Ok (Str.join "," parts)
  | VObj props =>
      match lookup "toString" props with
      | Some _ => Throw TypeError
      | None => Ok "[object Object]"
      end
  end.

(** The conversion to text does not throw. *)
Definition printable (v : value) : bool :=
  match toStr v with
  | Ok _ => true
  | Throw _ => false
  end.


Definition hex_digit (d : nat) : ascii :=
  if (d <? 10)%nat then ascii_of_nat (48 + d) else ascii_of_nat (87 + d).

(** QuoteJSONString: a code unit as it stands between the quotes. *)
Definition json_escape (c : ascii) : string :=
  let n := nat_of_ascii c in
  if (n =? 8)%nat then "\b"
  else if (n =? 9)%nat then "\t"
  else if (n =? 10)%nat then "\n"
  else if (n =? 12)%nat then "\f"
  else if (n =? 13)%nat then "\r"
  else if (n =? 34)%nat then "\" ++ dquote
  else if (n =? 92)%nat then "\\"
  else if (n <? 32)%nat then
    "\u00" ++ String (hex_digit (n / 16)) (String (hex_digit (n mod 16)) EmptyString)
  else String c EmptyString.

Fixpoint json_escape_all (s : string) : string :=
  match s with
  | EmptyString => EmptyString
  | String c rest => json_escape c ++ json_escape_all rest
  end.

Definition json_quote (s : string) : string :=
  dquote ++ json_escape_all s ++ dquote.

Definition present {A : Type} (p : string * option A) : list (string * A) :=
  match snd p with
  | Some a => [(fst p, a)]
  | None => []
  end.

(** [JSON.stringify(v)] without indentation. A property whose value is
    [undefined] is left out; an [undefined] array element and a number that
    is not finite are written [null]. [JSON.stringify(undefined)] itself is
    [undefined]: [None]. *)
Fixpoint stringify (v : value) : option string :=
  match v with
  | VUndefined => None
  | VNull => Some "null"
  | VBool b => Some (if b then "true" else "false")
  | VNum x => Some (if PrimFloat.is_finite x then Num.toString x else "null")
  | VStr s => Some (json_quote s)
  | VArr items =>
      Some ("[" ++ Str.join ","
              (map (fun e => match stringify e with
                             | Some t => t
                             | None => "null"
                             end) items) ++ "]")
  | VObj props =>
      let members := map (fun p => (fst p, stringify (snd p))) props in
      Some ("{" ++ Str.join ","
              (map (fun m => json_quote (fst m) ++ ":" ++ snd m)
                 (flat_map present (own_order members))) ++ "}")
  end.

(* ================================================================= *)
(** ** Configuration *)

Definition DEFAULT_API_URL : string := "https://api.travrse.ai".
Definition API_VERSION : string := "v1".

(** [API_BASE_URL] as the script leaves it after its first lines, from the
    environment variable [TRAVRSE_API_URL] ([None] when it is not set). *)
Definition API_BASE_URL (TRAVRSE_API_URL : option string) : string :=
  let url :=
    match TRAVRSE_API_URL with
    | Some s => if String.eqb s "" then DEFAULT_API_URL else s
    | None => DEFAULT_API_URL
    end in
  (* if (API_BASE_URL.endsWith('/api')) API_BASE_URL = API_BASE_URL.slice(0, -4) *)
  let url := if Str.endsWith url "/api" then Str.dropLast 4 url else url in
  (* API_BASE_URL.replace(/\/$/, '') *)
  if Str.endsWith url "/" then Str.dropLast 1 url else url.

(** The address a request goes to. *)
Definition request_url (TRAVRSE_API_URL : option string) (endpoint : string) : string :=
  API_BASE_URL TRAVRSE_API_URL ++ "/" ++ API_VERSION ++ endpoint.

(* ================================================================= *)
(** ** Utility functions *)

(** [formatCost(cost)]; [None] is [null] or [undefined]. *)
Definition formatCost (cost : option float) : string :=
  match cost with
  | None => "N/A"
  | Some c => "$" ++ Num.toFixed 4 c
  end.

(** [truncateText(text, maxLength)]. *)
Definition truncateText (text : value) (maxLength : Z) : string :=
  if negb (truthy text) then ""
  else
    let text :=
      match text with
      | VStr s => s
      | _ => match stringify text with
             | Some t => t
             | None => ""
             end
      end in
    if Z.of_nat (String.length text) <=? maxLength then text
    else Str.substring0 (maxLength - 3) text ++ "...".
(* ================================================================= *)
(** ** API functions *)

(** What the server does with one request, as [makeRequest] sees it. *)
Inductive exchange : Type :=
| NoResponse (message : string)
| HttpError (status : Z) (statusText errorText : string)
| HttpJson (body : value)
| HttpNotJson.

(** [makeRequest(endpoint, options)], given the server's answer. *)
Definition makeRequest (x : exchange) : result value :=
  match x with
  | NoResponse message => Throw (FetchFailed message)
  | HttpError status statusText errorText =>
      Throw (RequestFailed status statusText errorText)
  | HttpJson body => Ok body
  | HttpNotJson => Throw SyntaxError
  end.

(** The callback of [submissions.map] in [submitEval]. *)
Definition normalizeSubmission (s : value) : result value :=
  eval_name <- member s "eval_name" ;;
  Ok (VObj
        [ ("eval_name", js_or eval_name (get s "evalName"));
          ("batch_execution_id",
            js_or (get s "batch_execution_id") (get s "batchExecutionId"));
          ("status", get s "status");
          ("queue_name", js_or (get s "queue_name") (get s "queueName")) ]).

(** [submitEval(evalConfig)], given the server's answer to the POST. The
    three lines it logs after the request print the group id, the number of
    evals and the number of submissions; a value that cannot be converted to
    text makes the function throw there. *)
Definition submitEval (x : exchange) : result value :=
  response <- makeRequest x ;;
  eval_group_id <- member response "eval_group_id" ;;
  let evalGroupId := js_or eval_group_id (get response "evalGroupId") in
  let totalEvals := js_or (get response "total_evals") (get response "totalEvals") in
  let submissions := js_or (get response "submissions") (VArr []) in
  _ <- toStr evalGroupId ;;
  _ <- toStr totalEvals ;;
  _ <- toStr (lengthOf submissions) ;;
  match submissions with
  | VArr items =>
      normalizedSubmissions <- mapR normalizeSubmission items ;;
      Ok (VObj
            [ ("eval_group_id", evalGroupId);
              ("total_evals", totalEvals);
              ("submissions", VArr normalizedSubmissions) ])
  | _ => Throw TypeError   (* submissions.map is not a function *)
  end.

(** [getEvalBatches(status)], given the server's answer. *)
Definition getEvalBatches (x : exchange) : result value :=
  makeRequest x.

(** [getEvalResults(batchExecutionId)], given the server's answer. *)
Definition getEvalResults (x : exchange) : result value :=
  makeRequest x.

(* ================================================================= *)
(** ** The poll loop *)

(** [b.batch_execution_id || b.batchExecutionId]. *)
Definition batchIdOf (b : value) : value :=
  js_or (get b "batch_execution_id") (get b "batchExecutionId").

(** The callback of [batches.filter]. *)
Definition isOurs (batchIds : list value) (b : value) : result bool :=
  batch_execution_id <- member b "batch_execution_id" ;;
  Ok (includes batchIds (js_or batch_execution_id (get b "batchExecutionId"))).

(** [batch.status === 'completed' || batch.status === 'failed']. *)
Definition finished (batch : value) : bool :=
  is_string "completed" (get batch "status") || is_string "failed" (get batch "status").

(** The body of the [try] block, up to its decision: our batches and
    whether all of them are finished. Counting the statuses uses each
    status as a property key, which throws for a status that cannot be
    converted to text; the progress line itself is left out. *)
Definition pollOnce (batchIds : list value) (x : exchange) : result (list value * bool) :=
  batchesResponse <- getEvalBatches x ;;
  listed <- member batchesResponse "batches" ;;
  match js_or listed (VArr []) with
  | VArr batches =>
      ourBatches <- filterR (isOurs batchIds) batches ;;
      _ <- mapR (fun batch => toStr (get batch "status")) ourBatches ;;
      Ok (ourBatches, forallb finished ourBatches)
  | _ => Throw TypeError   (* batches.filter is not a function *)
  end.

(** [elapsed > MAX_WAIT_MS]; [MAX_WAIT_MS] is [None] when [parseInt] gave
    [NaN]. *)
Definition exceeds (elapsed : Z) (MAX_WAIT_MS : option Z) : bool :=
  match MAX_WAIT_MS with
  | Some limit => limit <? elapsed
  | None => false
  end.

(** How a run of the loop ends. [Waiting]: the loop is asleep or asking,
    and the recorded world has nothing more to say. *)
Inductive ending : Type :=
| Returned (ourBatches : list value)
| Thrown (e : error)
| Waiting.

(** The world of one iteration: what [Date.now()] reads at its start and
    what the server does with the request, if the iteration makes one. *)
Definition tick : Type := (Z * exchange)%type.

(** [while (true) { ... }]: the ending, and the number of requests made to
    the status endpoint. Each iteration that does not end the loop sleeps,
    whether the [try] block or the [catch] block ran. *)
Fixpoint pollLoop (MAX_WAIT_MS : option Z) (batchIds : list value) (startTime : Z)
    (world : list tick) (calls : nat) : ending * nat :=
  match world with
  | [] => (Waiting, calls)
  | (now, x) :: later =>
      let elapsed := now - startTime in
      if exceeds elapsed MAX_WAIT_MS then (Thrown MaximumWaitExceeded, calls)
      else
        match pollOnce batchIds x with
        | Ok (ourBatches, true) => (Returned ourBatches, S calls)
        | Ok (_, false) => pollLoop MAX_WAIT_MS batchIds startTime later (S calls)
        | Throw _ => pollLoop MAX_WAIT_MS batchIds startTime later (S calls)
        end
  end.

(** [pollForCompletion(submissions, startTime)]. Before the loop it reads
    the id of every submission, and fills the table [batchIdToSubmission]
    with each id as a property key; the table is never read. *)
Definition pollForCompletion (MAX_WAIT_MS : option Z) (submissions : list value)
    (startTime : Z) (world : list tick) : ending * nat :=
  match mapR (fun s => member s "batch_execution_id") submissions with
  | Ok batchIds =>
      match mapR toStr batchIds with
      | Ok _ => pollLoop MAX_WAIT_MS batchIds startTime world 0
      | Throw e => (Thrown e, O)
      end
  | Throw e => (Thrown e, O)
  end.

(* ================================================================= *)
(** ** Detailed results *)

(** One step of a record. The two cost properties are numbers when they
    are there ([None]: absent or [null]); the other properties are kept as
    JSON. *)
Record StepResult : Type := mkStep {
  fields : obj;
  total_cost : option float;
  totalCost : option float
}.

Definition field (s : StepResult) (k : string) : value := get (VObj (fields s)) k.

(** The results of one batch. [results_by_record] maps a record id to the
    steps of that record, in insertion order; [None] when the property is
    absent or [null]. [info] holds the other properties. *)
Record ResultSet : Type := mkResults {
  info : obj;
  results_by_record : option (list (string * list StepResult))
}.

(** One turn of the inner loop of [calculateTotalCost]. *)
Definition addStepCost (totalCost_ : float) (stepResult : StepResult) : float :=
  let cost :=
    match total_cost stepResult with
    | Some c => c
    | None =>
        match totalCost stepResult with
        | Some c => c
        | None => 0%float
        end
    end in
  (totalCost_ + cost)%float.

(** [calculateTotalCost(results)]. *)
Definition calculateTotalCost (results : ResultSet) : float :=
  match results_by_record results with
  | None => 0%float
  | Some byRecord =>
      fold_left
        (fun totalCost_ rec => fold_left addStepCost (snd rec) totalCost_)
        (own_order byRecord) 0%float
  end.

(* ----------------------------------------------------------------- *)
(** *** The summary table *)

Definition summaryHeader : list string :=
  [ "## Summary";
    "";
    "| Eval Name | Total Records | Processed | Failed | Status | Total Cost |";
    "|-----------|---------------|-----------|--------|--------|------------|" ].

(** The total cost of a batch, as the loop of [generateSummaryTable]
    computes it. [detailedResultsMap] is keyed by the batch id as a
    property name ([None]: the argument is not given); looking the id up
    converts it to text, which may throw. A key that only
    [Object.prototype] has leads to a total of 0 as well, like a key that is
    not there. *)
Definition batchTotalCost (batchId : value)
    (detailedResultsMap : option (list (string * ResultSet))) : result float :=
  match detailedResultsMap with
  | Some m =>
      key <- toStr batchId ;;
      match lookup key m with
      | Some results => Ok (calculateTotalCost results)
      | None => Ok 0%float
      end
  | None => Ok 0%float
  end.

Definition costCell (totalCost_ : float) : string :=
  if (0 <? totalCost_)%float then formatCost (Some totalCost_) else "N/A".

(** The cells of the row of one batch, before they are printed. *)
Definition rowEvalName (batch : value) : value :=
  js_or (js_or (get batch "eval_name") (get batch "evalName")) (VStr "N/A").

Definition rowTotalRecords (batch : value) : value :=
  js_or (js_or (get batch "total_records") (get batch "totalRecords")) (VNum 0).

Definition rowProcessedRecords (batch : value) : value :=
  js_or (js_or (get batch "processed_records") (get batch "processedRecords")) (VNum 0).

Definition rowFailedRecords (batch : value) : value :=
  js_or (js_or (get batch "failed_records") (get batch "failedRecords")) (VNum 0).

(** The line pushed for one batch. The template literal converts the cells
    to text from left to right. *)
Definition summaryRow (batch : value)
    (detailedResultsMap : option (list (string * ResultSet))) : result string :=
  batch_execution_id <- member batch "batch_execution_id" ;;
  let batchId := js_or batch_execution_id (get batch "batchExecutionId") in
  totalCost_ <- batchTotalCost batchId detailedResultsMap ;;
  let costStr := costCell totalCost_ in
  let evalName := rowEvalName batch in
  let status := get batch "status" in
  let totalRecords := rowTotalRecords batch in
  let processedRecords := rowProcessedRecords batch in
  let failedRecords := rowFailedRecords batch in
  name <- toStr evalName ;;
  total <- toStr totalRecords ;;
  processed <- toStr processedRecords ;;
  failed <- toStr failedRecords ;;
  state <- toStr status ;;
  Ok ("| " ++ name ++ " | " ++ total ++ " | " ++ processed ++ " | " ++ failed ++
      " | " ++ state ++ " | " ++ costStr ++ " |").

(** [generateSummaryTable(batches, detailedResultsMap)]. *)
Definition generateSummaryTable (batches : list value)
    (detailedResultsMap : option (list (string * ResultSet))) : result string :=
  rows <- mapR (fun batch => summaryRow batch detailedResultsMap) batches ;;
  Ok (Str.join nl (summaryHeader ++ rows ++ [""])).

(* ----------------------------------------------------------------- *)
(** *** The detail tables, as markdown *)

Module Markdown.

Definition stepLine (stepResult : StepResult) : result string :=
  let stepName :=
    js_or (js_or (field stepResult "step_name") (field stepResult "stepName")) (VStr "N/A") in
  let stepType :=
    js_or (js_or (field stepResult "step_type") (field stepResult "stepType")) (VStr "N/A") in
  let model :=
    js_or (js_or (field stepResult "model_used") (field stepResult "modelUsed")) (VStr "N/A") in
  duration <-
    (if negb (nullish (field stepResult "duration_ms"))
     then toStr (field stepResult "duration_ms")
     else if negb (nullish (field stepResult "durationMs"))
          then toStr (field stepResult "durationMs")
          else Ok "N/A") ;;
  let cost :=
    match total_cost stepResult with
    | Some c => formatCost (Some c)
    | None =>
        match totalCost stepResult with
        | Some c => formatCost (Some c)
        | None => "N/A"
        end
    end in
  let outputPreview :=
    truncateText (js_or (field stepResult "output") (field stepResult "outputPreview")) 40 in
  name <- toStr stepName ;;
  type <- toStr stepType ;;
  used <- toStr model ;;
  Ok ("| " ++ name ++ " | " ++ type ++ " | " ++ used ++
      " | " ++ duration ++ " | " ++ cost ++ " | " ++ outputPreview ++ " |").

(** The lines one turn of the loop over the record ids pushes. *)
Definition recordLines (rec : string * list StepResult) : result (list string) :=
  let recordId := fst rec in
  let stepResults := snd rec in
  match stepResults with
  | [] => Ok []
  | firstResult :: _ =>
      let recordName :=
        js_or (js_or (field firstResult "record_name") (field firstResult "recordName"))
              (VStr recordId) in
      name <- toStr recordName ;;
      rows <- mapR stepLine stepResults ;;
      let heading :=
        [ "### Record: " ++ name;
          "";
          "| Step Name | Step Type | Model | Duration (ms) | Cost | Output Preview |";
          "|-----------|-----------|-------|---------------|------|----------------|" ] in
      Ok (heading ++ rows ++ [ "" ])%list
  end.

(** [generateDetailedResultsMarkdown(results)]. It throws when a value it
    prints cannot be converted to text, and returns nothing then. *)
Definition generateDetailedResultsMarkdown (results : ResultSet) : result string :=
  let evalName :=
    js_or (js_or (get (VObj (info results)) "eval_name")
                 (get (VObj (info results)) "evalName")) (VStr "Unknown") in
  name <- toStr evalName ;;
  let lines := [ "## Detailed Results: " ++ name; "" ] in
  let resultsByRecord :=
    match results_by_record results with
    | Some byRecord => byRecord
    | None => []
    end in
  let records := own_order resultsByRecord in
  match records with
  | [] => Ok (Str.join nl (lines ++ [ "No results found."; "" ]))
  | _ =>
      blocks <- mapR recordLines records ;;
      Ok (Str.join nl (lines ++ List.concat blocks)%list)
  end.

End Markdown.

(* ----------------------------------------------------------------- *)
(** *** The detail tables, on the console *)

Module Console.

(** What a sequence of [console.log] calls writes to standard output:
    each argument and a line end. *)
Definition stdout (logged : list string) : string :=
  String.concat "" (map (fun text => text ++ nl) logged).

(** The arguments of the [console.log] calls made, in order, and the
    exception that ended them, if one was thrown: what is logged before a
    throw stays logged. *)
Definition logging : Type := (list string * option error)%type.

(** [logged] first, then [rest]. *)
Definition logMore (logged : list string) (rest : logging) : logging :=
  ((logged ++ fst rest)%list, snd rest).

Definition stepLine (stepResult : StepResult) : result string :=
  let stepName :=
    js_or (js_or (field stepResult "step_name") (field stepResult "stepName")) (VStr "N/A") in
  let stepType :=
    js_or (js_or (field stepResult "step_type") (field stepResult "stepType")) (VStr "N/A") in
  let model :=
    js_or (js_or (field stepResult "model_used") (field stepResult "modelUsed")) (VStr "N/A") in
  duration <-
    (if negb (nullish (field stepResult "duration_ms"))
     then toStr (field stepResult "duration_ms")
     else if negb (nullish (field stepResult "durationMs"))
          then toStr (field stepResult "durationMs")
          else Ok "N/A") ;;
  let cost :=
    match total_cost stepResult with
    | Some c => formatCost (Some c)
    | None =>
        match totalCost stepResult with
        | Some c => formatCost (Some c)
        | None => "N/A"
        end
    end in
  let outputPreview :=
    truncateText (js_or (field stepResult "output") (field stepResult "outputPreview")) 40 in
  name <- toStr stepName ;;
  type <- toStr stepType ;;
  used <- toStr model ;;
  Ok ("| " ++ name ++ " | " ++ type ++ " | " ++ used ++
      " | " ++ duration ++ " | " ++ cost ++ " | " ++ outputPreview ++ " |").

(** The loop over the steps of one record. *)
Fixpoint logSteps (stepResults : list StepResult) : logging :=
  match stepResults with
  | [] => ([], None)
  | stepResult :: rest =>
      match stepLine stepResult with
      | Ok line => logMore [ line ] (logSteps rest)
      | Throw e => ([], Some e)
      end
  end.

(** One turn of the loop over the record ids. *)
Definition recordLogs (rec : string * list StepResult) : logging :=
  let recordId := fst rec in
  let stepResults := snd rec in
  match stepResults with
  | [] => ([], None)
  | firstResult :: _ =>
      let recordName :=
        js_or (js_or (field firstResult "record_name") (field firstResult "recordName"))
              (VStr recordId) in
      match toStr recordName with
      | Throw e => ([], Some e)
      | Ok name =>
          let heading :=
            [ "### Record: " ++ name ++ nl;
              "| Step Name | Step Type | Model | Duration (ms) | Cost | Output Preview |";
              "|-----------|-----------|-------|---------------|------|----------------|" ] in
          logMore heading
            (match logSteps stepResults with
             | (rows, None) => ((rows ++ [ "" ])%list, None)
             | (rows, Some e) => (rows, Some e)
             end)
      end
  end.

(** The loop over the record ids. *)
Fixpoint logRecords (records : list (string * list StepResult)) : logging :=
  match records with
  | [] => ([], None)
  | rec :: rest =>
      match recordLogs rec with
      | (logged, None) => logMore logged (logRecords rest)
      | (logged, Some e) => (logged, Some e)
      end
  end.

(** [displayDetailedResults(results)]. *)
Definition displayDetailedResults (results : ResultSet) : logging :=
  let evalName :=
    js_or (js_or (get (VObj (info results)) "eval_name")
                 (get (VObj (info results)) "evalName")) (VStr "Unknown") in
  match toStr evalName with
  | Throw e => ([], Some e)
  | Ok name =>
      let first := "## Detailed Results: " ++ name ++ nl in
      let resultsByRecord :=
        match results_by_record results with
        | Some byRecord => byRecord
        | None => []
        end in
      let records := own_order resultsByRecord in
      match records with
      | [] => ([ first; "No results found." ++ nl ], None)
      | _ => logMore [ first ] (logRecords records)
      end
  end.

End Console.

(* ================================================================= *)
(** ** The run of the script *)

(** The environment variables the script reads. [MAX_WAIT_MS] is given as
    [parseInt] leaves it ([None]: NaN). *)
Record Environment : Type := mkEnv {
  env_TRAVRSE_API_KEY : option string;
  env_TV_API_KEY : option string;
  env_TRAVRSE_API_URL : option string;
  env_MAX_WAIT_MS : option Z
}.

(** [a || b] on two environment variables: an empty one counts as unset. *)
Definition envOr (a b : option string) : option string :=
  match a with
  | Some s => if String.eqb s "" then b else a
  | None => b
  end.

(** [API_KEY]. *)
Definition API_KEY (env : Environment) : option string :=
  envOr (env_TRAVRSE_API_KEY env) (env_TV_API_KEY env).

(** [!API_KEY]. *)
Definition noKey (key : option string) : bool :=
  match key with
  | Some s => String.eqb s ""
  | None => true
  end.

Definition DEFAULT_SUMMARY_OUTPUT : string := "eval-summary.md".

(** [v?.k]. *)
Definition optional (v : value) (k : string) : value :=
  if nullish v then VUndefined else get v k.

(** The last three lines of the banner [main] prints after loading the
    config: the name of the flow, the number of records and the number of
    eval configs. They read the config outside of any [try]: a config that
    is [null], or a value that cannot be converted to text, makes them
    throw. *)
Definition banner (evalConfig : value) : result (list string) :=
  flow_definition <- member evalConfig "flow_definition" ;;
  flow <- toStr (js_or (optional flow_definition "name") (VStr "N/A")) ;;
  let records := get evalConfig "records" in
  recordCount <-
    toStr (js_or (if nullish records then VUndefined else lengthOf records) (VNum 0)) ;;
  let eval_configs := get evalConfig "eval_configs" in
  configCount <-
    toStr (js_or (if nullish eval_configs then VUndefined else lengthOf eval_configs)
             (VNum 0)) ;;
  Ok [ "Flow: " ++ flow;
       "Records: " ++ recordCount;
       "Eval Configs: " ++ configCount ++ nl ].

(** A request as [makeRequest] sends it. *)
Record request : Type := mkRequest {
  req_method : string;
  req_url : string;
  req_body : option string
}.

(** The POST of [submitEval]. *)
Definition submitRequest (env : Environment) (evalConfig : value) : request :=
  mkRequest "POST" (request_url (env_TRAVRSE_API_URL env) "/eval/submit")
    (stringify evalConfig).

(** The GET of [getEvalBatches()], without a status filter. *)
Definition batchesRequest (env : Environment) : request :=
  mkRequest "GET" (request_url (env_TRAVRSE_API_URL env) "/eval/batches") None.

(** The GET of [getEvalResults(batchExecutionId)], for an id that the
    template literal of the endpoint has converted to text. *)
Definition resultsRequest (env : Environment) (batchExecutionId : string) : request :=
  mkRequest "GET"
    (request_url (env_TRAVRSE_API_URL env)
       ("/eval/" ++ batchExecutionId ++ "/results"))
    None.

(** What [getEvalResults] comes back with: the error it throws, or the
    server's document, read as a [ResultSet]. *)
Inductive resultsAnswer : Type :=
| ResultsFailed (e : error)
| ResultsOk (results : ResultSet).

(** [m[k] = v] on the own properties of an object used as a table. *)
Fixpoint assign {A : Type} (k : string) (v : A) (m : list (string * A)) : list (string * A) :=
  match m with
  | [] => [ (k, v) ]
  | (k', v') :: rest =>
      if String.eqb k k' then (k, v) :: rest else (k', v') :: assign k v rest
  end.

(** The state of the loop that fetches the detailed results:
    [detailedResultsMap] holds the own properties of the table,
    [tablePrototype] the results that were made its prototype, if any. *)
Record Fetched : Type := mkFetched {
  detailedResults : list ResultSet;
  detailedResultsMap : list (string * ResultSet);
  tablePrototype : option ResultSet;
  resultsRequests : list request
}.

(** The key [__proto__] is the one key an assignment treats differently. *)
Definition isProto (k : string) : bool := String.eqb k "__proto__".

(** The document has a property [k] of its own. *)
Definition hasOwn (results : ResultSet) (k : string) : bool :=
  match lookup k (info results) with
  | Some _ => true
  | None =>
      String.eqb k "results_by_record" &&
      match results_by_record results with
      | Some _ => true
      | None => false
      end
  end.

(** [detailedResultsMap[batchId] = results] after a request that succeeded.
    Under the key [__proto__] the assignment reaches the setter of
    [Object.prototype]: the results become the prototype of the table and no
    property is added, unless the table owns a property of that name by now,
    or the prototype it was given before has one, which the assignment then
    shadows with a property of the table. *)
Definition store (id : string) (results : ResultSet) (acc : Fetched)
    (sent : list request) : Fetched :=
  let shadowed :=
    match lookup id (detailedResultsMap acc), tablePrototype acc with
    | Some _, _ => true
    | None, Some before => hasOwn before id
    | None, None => false
    end in
  if isProto id && negb shadowed
  then mkFetched (detailedResults acc ++ [ results ])%list
         (detailedResultsMap acc) (Some results) sent
  else mkFetched (detailedResults acc ++ [ results ])%list
         (assign id results (detailedResultsMap acc)) (tablePrototype acc) sent.

(** How that loop ends. [FetchWaiting]: a request is out and the recorded
    world has no answer to it. *)
Inductive fetchEnding : Type :=
| FetchDone
| FetchWaiting
| FetchThrown (e : error).

(** [for (const batch of completedBatches) { try { ... } catch { ... } }].
    A batch without an id is skipped before any request; a request that
    fails is logged and the loop goes on. On a batch that is [null] or
    [undefined], and on an id that cannot be converted to text for the
    endpoint, the [try] block throws and the [catch] block, which reads and
    prints the id again, throws as well. *)
Fixpoint fetchResults (env : Environment) (completedBatches : list value)
    (answers : list resultsAnswer) (acc : Fetched) : fetchEnding * Fetched :=
  match completedBatches with
  | [] => (FetchDone, acc)
  | batch :: rest =>
      if nullish batch then (FetchThrown TypeError, acc)
      else
        let batchId := batchIdOf batch in
        if negb (truthy batchId) then fetchResults env rest answers acc
        else
          match toStr batchId with
          | Throw e => (FetchThrown e, acc)
          | Ok id =>
              let sent := (resultsRequests acc ++ [ resultsRequest env id ])%list in
              match answers with
              | [] =>
                  (FetchWaiting,
                   mkFetched (detailedResults acc) (detailedResultsMap acc)
                     (tablePrototype acc) sent)
              | ResultsOk results :: later =>
                  fetchResults env rest later (store id results acc sent)
              | ResultsFailed _ :: later =>
                  fetchResults env rest later
                    (mkFetched (detailedResults acc) (detailedResultsMap acc)
                       (tablePrototype acc) sent)
              end
          end
  end.

(** [for (const results of detailedResults) displayDetailedResults(results)]. *)
Fixpoint displayAll (detailedResults : list ResultSet) : Console.logging :=
  match detailedResults with
  | [] => ([], None)
  | results :: rest =>
      match Console.displayDetailedResults results with
      | (logged, None) => Console.logMore logged (displayAll rest)
      | (logged, Some e) => (logged, Some e)
      end
  end.

(** Everything outside the script that a run depends on. *)
Record World : Type := mkWorld {
  environment : Environment;
  summaryOutputArg : option string;      (* process.argv[3] *)
  configFile : result value;             (* readFileSync and JSON.parse *)
  submitAnswer : exchange;               (* the server, to the POST *)
  pollStart : Z;                         (* Date.now() after the submit *)
  pollTicks : list tick;                 (* the clock and the server, per poll *)
  resultsAnswers : list resultsAnswer;   (* the server, per results request *)
  writeSucceeds : bool                   (* writeFileSync does not throw *)
}.

(** How a run ends. [Uncaught]: [main()] rejects and nothing catches it.
    [Pending]: the run waits for an answer the recorded world does not
    have. [Beyond]: the run goes on where this model does not follow it. *)
Inductive termination : Type :=
| Exited (code : Z)
| Uncaught (e : error)
| Pending
| Beyond.

(** What a run leaves behind: how it ended, the requests it sent, in order,
    and the file it wrote (the name given to [resolve], and the text). What
    it prints is left out. *)
Record Run : Type := mkRun {
  ended : termination;
  requests : list request;
  written : option (string * string)
}.

Definition stop (t : termination) (sent : list request) : Run :=
  mkRun t sent None.

(** [main()]. The banner is printed before the [try] block: what it throws
    nothing catches. Inside the [try] block every exception ends the run with
    code 1: of the submit, of the poll, of the loop over the batches, of the
    summary table and of the detail tables, which are all built before the
    file is written, and of the detail tables printed after it.

    When results were made the prototype of the table of results (a batch
    whose id is the text [__proto__]), the summary table reads the
    properties of that document as if they were results of a batch: they are
    JSON of any shape, and the run is not followed further. *)
Definition main (w : World) : Run :=
  if noKey (API_KEY (environment w)) then stop (Exited 1) []
  else
    match configFile w with
    | Throw _ => stop (Exited 1) []
    | Ok evalConfig =>
        match banner evalConfig with
        | Throw e => stop (Uncaught e) []
        | Ok _ =>
          let summaryOutput :=
            match envOr (summaryOutputArg w) None with
            | Some name => name
            | None => DEFAULT_SUMMARY_OUTPUT
            end in
          let post := submitRequest (environment w) evalConfig in
          match submitEval (submitAnswer w) with
          | Throw _ => stop (Exited 1) [ post ]
          | Ok submitResponse =>
              match get submitResponse "submissions" with
              | VArr submissions =>
                  let polled :=
                    pollForCompletion (env_MAX_WAIT_MS (environment w)) submissions
                      (pollStart w) (pollTicks w) in
                  let polls := repeat (batchesRequest (environment w)) (snd polled) in
                  match fst polled with
                  | Thrown _ => stop (Exited 1) (post :: polls)
                  | Waiting => stop Pending (post :: polls)
                  | Returned completedBatches =>
                      let fetching :=
                        fetchResults (environment w) completedBatches (resultsAnswers w)
                          (mkFetched [] [] None []) in
                      let sent := (post :: polls ++ resultsRequests (snd fetching))%list in
                      match fst fetching with
                      | FetchThrown _ => stop (Exited 1) sent
                      | FetchWaiting => stop Pending sent
                      | FetchDone =>
                          match tablePrototype (snd fetching) with
                          | Some _ => stop Beyond sent
                          | None =>
                          match generateSummaryTable completedBatches
                                  (Some (detailedResultsMap (snd fetching))) with
                          | Throw _ => stop (Exited 1) sent
                          | Ok summaryMarkdown =>
                              match mapR Markdown.generateDetailedResultsMarkdown
                                      (detailedResults (snd fetching)) with
                              | Throw _ => stop (Exited 1) sent
                              | Ok sections =>
                                  let detailedResultsMarkdown :=
                                    Str.join (nl ++ nl) sections in
                                  let fullMarkdown :=
                                    summaryMarkdown ++ nl ++ detailedResultsMarkdown in
                                  let file :=
                                    if writeSucceeds w
                                    then Some (summaryOutput, fullMarkdown ++ nl)
                                    else None in
                                  match snd (displayAll (detailedResults (snd fetching))) with
                                  | Some _ => mkRun (Exited 1) sent file
                                  | None => mkRun (Exited 0) sent file
                                  end
                              end
                          end
                          end
                      end
                  end
              | _ => stop (Exited 1) [ post ]   (* submissions.map is not a function *)
              end
          end
        end
    end.

(* ================================================================= *)
(** * The words of the specification, and sample data *)

(* ----------------------------------------------------------------- *)
(** ** The total cost *)

(** The cost of a step as the specification words it: its cost, under
    either name, and 0 when it is missing or [null]. *)
Definition spec_stepCost (s : StepResult) : float :=
  match total_cost s, totalCost s with
  | Some c, _ => c
  | None, Some c => c
  | None, None => 0%float
  end.

(** The records of a ResultSet as the document lists them; none when
    [results_by_record] is absent. *)
Definition recordsOf (results : ResultSet) : list (string * list StepResult) :=
  match results_by_record results with
  | Some byRecord => byRecord
  | None => []
  end.

(** Every step of every record, in the order the object lists its records. *)
Definition allSteps (results : ResultSet) : list StepResult :=
  match results_by_record results with
  | Some byRecord => flat_map snd (own_order byRecord)
  | None => []
  end.

(** The sum of the costs of the steps, added up from 0 in the order given. *)
Definition spec_sum (steps : list StepResult) : float :=
  fold_left PrimFloat.add (map spec_stepCost steps) 0%float.

(** The total cost as the specification words it: the sum of the costs of
    all the steps, added up from 0 in that order. *)
Definition spec_totalCost (results : ResultSet) : float :=
  spec_sum (allSteps results).

(** Three records, the second under a key that is an array index; a step
    with the cost under the other name, and a step without a cost. *)
Definition threeRecords : ResultSet :=
  mkResults []
    (Some [ ("r1", [ mkStep [] (Some 0.25%float) None; mkStep [] None (Some 0.5%float) ]);
            ("7", [ mkStep [] (Some 1%float) None ]);
            ("r2", [ mkStep [] None None ]) ]).

(* ----------------------------------------------------------------- *)
(** ** Field names *)

(** A capital letter, A to Z. *)
Definition is_upper (c : ascii) : bool :=
  let n := nat_of_ascii c in (65 <=? n)%nat && (n <=? 90)%nat.

Fixpoint has_upper (s : string) : bool :=
  match s with
  | EmptyString => false
  | String c rest => is_upper c || has_upper rest
  end.

(** A name in snake_case has no capital letter. *)
Definition snake_case (name : string) : bool := negb (has_upper name).

(** The names of the own properties of an object. *)
Definition own_names (v : value) : list string :=
  match v with
  | VObj props => map fst props
  | _ => []
  end.

(** Every field name of a document, at any depth. *)
Fixpoint field_names (v : value) : list string :=
  match v with
  | VArr items => flat_map field_names items
  | VObj props => flat_map (fun p => fst p :: field_names (snd p)) props
  | _ => []
  end.

(** The fields of a submission as [submitEval] returns it. *)
Definition submissionNames : list string :=
  [ "eval_name"; "batch_execution_id"; "status"; "queue_name" ].

(** A list of batches as the server sends it under camelCase names. *)
Definition camelListing : value :=
  VObj [ ("batches",
          VArr [ VObj [ ("batchExecutionId", VStr "b1");
                        ("evalName", VStr "e1");
                        ("status", VStr "completed");
                        ("totalRecords", VNum 2) ] ]) ].

(** A response to the POST under camelCase names. *)
Definition camelSubmitted : value :=
  VObj [ ("evalGroupId", VStr "g1");
         ("totalEvals", VNum 1);
         ("submissions",
          VArr [ VObj [ ("evalName", VStr "e1");
                        ("batchExecutionId", VStr "b1");
                        ("status", VStr "queued");
                        ("queueName", VStr "default") ] ]) ].

(** The pairs of names [submitEval] reads for a submission. *)
Definition submissionPairs : list (string * string) :=
  [ ("eval_name", "evalName");
    ("batch_execution_id", "batchExecutionId");
    ("queue_name", "queueName") ].

(** The first truthy value of the two names, the default when there is
    none. *)
Definition firstTruthy (s : value) (snake camel : string) (default : value) : value :=
  if truthy (get s snake) then get s snake
  else if truthy (get s camel) then get s camel
  else default.

(** A submission whose snake_case name is the empty string. *)
Definition emptySnakeName : value :=
  VObj [ ("eval_name", VStr "");
         ("evalName", VStr "nightly");
         ("batch_execution_id", VStr "b1");
         ("status", VStr "queued") ].

(* ----------------------------------------------------------------- *)
(** ** The summary table *)

(** A decimal digit. *)
Definition is_digit (c : ascii) : bool :=
  let n := nat_of_ascii c in (48 <=? n)%nat && (n <=? 57)%nat.

Fixpoint all_digits (s : string) : bool :=
  match s with
  | EmptyString => true
  | String c rest => is_digit c && all_digits rest
  end.

(** An amount with four decimals: digits, at least one, a point, and four
    digits. *)
Definition fourDecimals (text : string) : Prop :=
  exists whole frac : string,
    text = whole ++ "." ++ frac /\
    whole <> "" /\ all_digits whole = true /\
    String.length frac = 4%nat /\ all_digits frac = true.

(** The number is finite and its magnitude is below 10^21, where
    [toFixed] changes to the exponent notation. *)
Definition belowE21 (x : float) : bool :=
  match Prim2SF x with
  | S754_finite _ m e => Num.Qltb (Num.exact m e) (Num.pow10 21)
  | S754_zero _ => true
  | _ => false
  end.

(** Results that were fetched and cost nothing. *)
Definition zeroCostResults : ResultSet :=
  mkResults [ ("eval_name", VStr "e1") ]
    (Some [ ("r1", [ mkStep [ ("step_name", VStr "s1") ] (Some 0%float) None ]) ]).

(** The batch they belong to, as the status endpoint lists it. *)
Definition sampleBatch : value :=
  VObj [ ("batch_execution_id", VStr "b1");
         ("eval_name", VStr "e1");
         ("status", VStr "completed");
         ("total_records", VNum 1);
         ("processed_records", VNum 1) ].

(** One record with one step that costs 0.5. *)
Definition halfResults : ResultSet :=
  mkResults [ ("eval_name", VStr "e1") ]
    (Some [ ("r1", [ mkStep [ ("step_name", VStr "s1") ] (Some 0.5%float) None ]) ]).

(** The cells of a row can be converted to text. *)
Definition rowPrints (batch : value) : bool :=
  printable (rowEvalName batch) && printable (rowTotalRecords batch) &&
  printable (rowProcessedRecords batch) && printable (rowFailedRecords batch) &&
  printable (get batch "status").


(** The row of the batch can be written: the batch is there, its id can be
    used as a key of the table of results when there is one, and its cells
    can be converted to text. *)
Definition rowConverts (detailedResultsMap : option (list (string * ResultSet)))
    (batch : value) : bool :=
  negb (nullish batch) &&
  match detailedResultsMap with
  | Some _ =>
      printable (js_or (get batch "batch_execution_id") (get batch "batchExecutionId"))
  | None => true
  end &&
  rowPrints batch.

(** An object that cannot be converted to text. *)
Definition unprintable : value := VObj [ ("toString", VNum 1) ].

(* ----------------------------------------------------------------- *)
(** ** The poll loop *)

(** A submission as [submitEval] returns it. *)
Definition submitted (id : string) : value :=
  VObj [ ("eval_name", VStr "e1");
         ("batch_execution_id", VStr id);
         ("status", VStr "queued");
         ("queue_name", VUndefined) ].

(** A batch as the status endpoint lists it. *)
Definition listed (id status : string) : value :=
  VObj [ ("batch_execution_id", VStr id); ("status", VStr status) ].

(** A response of the status endpoint. *)
Definition listing (batches : list value) : exchange :=
  HttpJson (VObj [ ("batches", VArr batches) ]).

(** The iteration does not end the loop: the request failed, the response
    could not be read, or one of our batches in it is not finished. *)
Definition unfinished (batchIds : list value) (x : exchange) : bool :=
  match pollOnce batchIds x with
  | Ok (_, true) => false
  | _ => true
  end.

(** The iteration starts within the maximum wait and does not end the loop. *)
Definition retried (MAX_WAIT_MS : option Z) (batchIds : list value) (startTime : Z)
    (t : tick) : bool :=
  negb (exceeds (fst t - startTime) MAX_WAIT_MS) && unfinished batchIds (snd t).

(** Every id is the id of a batch of the list. *)
Definition listsAll (batchIds batches : list value) : bool :=
  forallb (fun id => existsb (fun b => sameValueZero id (batchIdOf b)) batches) batchIds.

(** No element is [null] or [undefined]. *)
Definition present_all (items : list value) : bool :=
  forallb (fun v => negb (nullish v)) items.

(** The value is not an array and not an object: a string, a number, a
    boolean, [null] or [undefined]. *)
Definition primitive (v : value) : bool :=
  match v with
  | VArr _ | VObj _ => false
  | _ => true
  end.

(** The batches listed by the response the server gave to request number
    [n], counted from 1. *)
Definition listedAt (world : list tick) (n : nat) : list value :=
  match nth_error world (n - 1) with
  | Some (_, HttpJson body) =>
      match js_or (get body "batches") (VArr []) with
      | VArr batches => batches
      | _ => []
      end
  | _ => []
  end.

(* ----------------------------------------------------------------- *)
(** ** Further words and sample data *)

(** The base URL as configured: the environment variable, or the default
    when it is unset or empty. *)
Definition configuredUrl (TRAVRSE_API_URL : option string) : string :=
  match TRAVRSE_API_URL with
  | Some s => if String.eqb s "" then DEFAULT_API_URL else s
  | None => DEFAULT_API_URL
  end.

(** The name a ResultSet is printed under. *)
Definition resultsName (results : ResultSet) : value :=
  js_or (js_or (get (VObj (info results)) "eval_name")
               (get (VObj (info results)) "evalName")) (VStr "Unknown").


(** The batch has an id to ask the results for. *)
Definition hasId (batch : value) : bool := truthy (batchIdOf batch).

(** The request failed: no response, an HTTP error, or a body that is not
    JSON. *)
Definition failed (x : exchange) : bool :=
  match makeRequest x with
  | Throw _ => true
  | Ok _ => false
  end.

(** The results the answers carry, failures left out. *)
Definition succeeded (answers : list resultsAnswer) : list ResultSet :=
  flat_map (fun a => match a with
                     | ResultsOk results => [ results ]
                     | ResultsFailed _ => []
                     end) answers.


(** The banner can be printed: the config is not [null], and the name of
    the flow, and a [length] written into [records] or [eval_configs] when
    they are objects, can be converted to text. *)
Definition bannerPrints (evalConfig : value) : bool :=
  negb (nullish evalConfig) &&
  printable (get (get evalConfig "flow_definition") "name") &&
  printable (get (get evalConfig "records") "length") &&
  printable (get (get evalConfig "eval_configs") "length").

(** An environment with a key and a local server. *)
Definition localEnv : Environment :=
  mkEnv (Some "secret") None (Some "http://localhost:8787") (Some 1800000).

(** A run in which one batch is submitted, found running, then completed,
    and its results are fetched. *)
Definition sampleWorld : World :=
  mkWorld localEnv None
    (Ok (VObj [ ("flow_definition", VObj [ ("name", VStr "car-finder") ]) ]))
    (HttpJson (VObj [ ("eval_group_id", VStr "g1");
                      ("submissions", VArr [ submitted "b1" ]) ]))
    0
    [ (0, listing [ listed "b1" "running" ]);
      (5000, listing [ listed "b1" "completed" ]) ]
    [ ResultsOk halfResults ]
    true.

(* ----------------------------------------------------------------- *)
(** ** Proof steps *)

(** A computation that ends in [Ok] did not throw on the way: split the
    first [bind] of [H] and drop the case that throws. *)
Ltac bind_ok H :=
  match type of H with
  | context [bind ?r _] =>
      let E := fresh "E" in
      destruct r eqn:E; cbn [bind] in H; [| discriminate H]
  end.

(** Follow [main] branch by branch: split the test or the match the goal
    stands on, keeping the case as an equation. *)
Ltac split_run :=
  repeat match goal with
         | |- context [if ?c then _ else _] => destruct c eqn:?
         | |- context [match ?x with _ => _ end] => destruct x eqn:?
         end.

(* ================================================================= *)
(** * Properties *)

(* ----------------------------------------------------------------- *)
(** ** Strings *)

Lemma append_assoc (a b c : string) : (a ++ b) ++ c = a ++ (b ++ c).
Proof.
  induction a as [| ch a IH]; simpl.
  - reflexivity.
  - now rewrite IH.
Qed.

Lemma append_empty_r (a : string) : a ++ "" = a.
Proof.
  induction a as [| ch a IH]; simpl; [reflexivity | now rewrite IH].
Qed.

Lemma length_append (a b : string) :
  String.length (a ++ b) = (String.length a + String.length b)%nat.
Proof.
  induction a as [| ch a IH]; simpl; [reflexivity | now rewrite IH].
Qed.

(** A prefix no longer than the string has the length asked for. *)
Lemma length_prefix (n : nat) (s : string) :
  (n <= String.length s)%nat -> String.length (String.substring 0 n s) = n.
Proof.
  revert s; induction n as [| n IH]; intros s Hn.
  - destruct s; reflexivity.
  - destruct s as [| ch s]; simpl in *.
    + lia.
    + rewrite IH by lia. reflexivity.
Qed.

(** A prefix at least as long as the string is the string. *)
Lemma prefix_all (n : nat) (s : string) :
  (String.length s <= n)%nat -> String.substring 0 n s = s.
Proof.
  revert s; induction n as [| n IH]; intros s Hn.
  - destruct s; simpl in *; [reflexivity | lia].
  - destruct s as [| ch s]; simpl in *.
    + reflexivity.
    + rewrite IH by lia. reflexivity.
Qed.

Lemma prefix_of_append (a b : string) :
  String.substring 0 (String.length a) (a ++ b) = a.
Proof.
  induction a as [| ch a IH]; simpl.
  - destruct b; reflexivity.
  - now rewrite IH.
Qed.

Lemma substring_past_prefix (a b : string) (n : nat) :
  String.substring (String.length a) n (a ++ b) = String.substring 0 n b.
Proof.
  induction a as [| ch a IH]; simpl; [reflexivity | exact IH].
Qed.

(** What follows a prefix is the end of the string. *)
Lemma endsWith_append (a b : string) : Str.endsWith (a ++ b) b = true.
Proof.
  unfold Str.endsWith. rewrite length_append.
  replace (String.length a + String.length b - String.length b)%nat
    with (String.length a) by lia.
  rewrite substring_past_prefix, prefix_all by lia.
  rewrite String.eqb_refl, andb_true_r. apply Nat.leb_le. lia.
Qed.

Lemma dropLast_append (a b : string) : Str.dropLast (String.length b) (a ++ b) = a.
Proof.
  unfold Str.dropLast. rewrite length_append.
  replace (String.length a + String.length b - String.length b)%nat
    with (String.length a) by lia.
  apply prefix_of_append.
Qed.

Lemma append_not_empty (a b : string) :
  b <> "" -> String.eqb (a ++ b) "" = false.
Proof.
  intros Hb. apply String.eqb_neq. destruct a; simpl; [exact Hb | discriminate].
Qed.

Lemma eqb_empty_length (s : string) :
  String.eqb s "" = true <-> String.length s = O.
Proof.
  destruct s; simpl; split; intro H; try reflexivity; discriminate.
Qed.

(* ----------------------------------------------------------------- *)
(** ** truncateText *)

(** On a string, [truncateText] tests the length only: the empty string is
    the one falsy string, and it is its own truncation. *)
Lemma truncateText_string (s : string) (maxLength : Z) :
  0 <= maxLength ->
  truncateText (VStr s) maxLength =
    if Z.of_nat (String.length s) <=? maxLength then s
    else Str.substring0 (maxLength - 3) s ++ "...".
Proof.
  intros Hmax. unfold truncateText. simpl.
  destruct (String.eqb s "") eqn:E; simpl.
  - apply String.eqb_eq in E. subst s. simpl.
    destruct (0 <=? maxLength) eqn:L; [reflexivity | lia].
  - reflexivity.
Qed.

(** C7. A preview string of at most 40 code units is returned unchanged by
    [truncateText(text, 40)]; a longer one becomes its first 37 code units
    followed by the three dots, 40 code units in all. *)
Theorem truncateText_40 (s : string) :
  ((String.length s <= 40)%nat -> truncateText (VStr s) 40 = s) /\
  ((40 < String.length s)%nat ->
     truncateText (VStr s) 40 = String.substring 0 37 s ++ "..." /\
     String.length (truncateText (VStr s) 40) = 40%nat).
Proof.
  rewrite truncateText_string by lia. split; intros H.
  - destruct (Z.of_nat (String.length s) <=? 40) eqn:L; [reflexivity | lia].
  - destruct (Z.of_nat (String.length s) <=? 40) eqn:L; [lia |].
    unfold Str.substring0. change (Z.to_nat (40 - 3)) with 37%nat.
    split; [reflexivity |].
    rewrite length_append, length_prefix by lia. reflexivity.
Qed.

Lemma truncateText_40_witness :
  truncateText (VStr "completed") 40 = "completed" /\
  truncateText (VStr "The quick brown fox jumps over the lazy dog") 40
    = "The quick brown fox jumps over the la...".
Proof.
  split.
  - apply (proj1 (truncateText_40 "completed")). simpl. lia.
  - apply (proj2 (truncateText_40 "The quick brown fox jumps over the lazy dog")).
    simpl. lia.
Defined.

(** C10. [truncateText] returns the empty string for every falsy input,
    whatever the limit: the empty string, [null], [undefined], the numbers
    0, -0 and NaN, and [false]. None of them reaches [JSON.stringify]; the
    number 0 previews as the empty string, not as its JSON text. *)
Theorem truncateText_falsy (maxLength : Z) :
  (forall v : value, truthy v = false -> truncateText v maxLength = "") /\
  truncateText (VStr "") maxLength = "" /\
  truncateText VNull maxLength = "" /\
  truncateText VUndefined maxLength = "" /\
  truncateText (VNum 0) maxLength = "" /\
  truncateText (VBool false) maxLength = "" /\
  stringify (VNum 0) = Some "0".
Proof.
  assert (H : forall v : value, truthy v = false -> truncateText v maxLength = "").
  { intros v Hv. unfold truncateText. rewrite Hv. reflexivity. }
  repeat split; try (apply H; reflexivity); exact H.
Qed.

Lemma truncateText_falsy_witness :
  truncateText (VNum (-0)%float) 40 = "" /\ truncateText (VNum PrimFloat.nan) 40 = "".
Proof.
  split.
  - apply (proj1 (truncateText_falsy 40)). reflexivity.
  - apply (proj1 (truncateText_falsy 40)). reflexivity.
Defined.

(* ----------------------------------------------------------------- *)
(** ** The base URL *)

(** The last four code units of a value that ends in ["/api/"] are
    ["api/"]: the test for the suffix ["/api"] fails. *)
Lemma endsWith_api_slash (base : string) :
  Str.endsWith (base ++ "/api/") "/api" = false.
Proof.
  unfold Str.endsWith.
  replace (base ++ "/api/") with ((base ++ "/") ++ "api/")
    by (rewrite append_assoc; reflexivity).
  rewrite length_append. cbn [String.length].
  replace (String.length (base ++ "/") + 4 - 4)%nat
    with (String.length (base ++ "/")) by lia.
  rewrite substring_past_prefix. cbn [String.substring].
  rewrite andb_false_r. reflexivity.
Qed.

(** C8. A base URL that ends in ["/api/"] keeps its ["/api"], whatever
    stands before it: the test for the suffix runs before the trailing
    slash is removed and does not see it, so the requests go to
    [.../api/v1/...]. A value that ends in ["/api"] loses it, as the comment
    in the script says, and then one trailing slash. *)
Theorem API_BASE_URL_api_then_slash (base : string) :
  API_BASE_URL (Some (base ++ "/api/")) = base ++ "/api" /\
  Str.endsWith (API_BASE_URL (Some (base ++ "/api/"))) "/api" = true /\
  API_BASE_URL (Some (base ++ "/api"))
    = (if Str.endsWith base "/" then Str.dropLast 1 base else base).
Proof.
  assert (H : API_BASE_URL (Some (base ++ "/api/")) = base ++ "/api").
  { unfold API_BASE_URL.
    rewrite append_not_empty by discriminate.
    rewrite endsWith_api_slash.
    replace (base ++ "/api/") with ((base ++ "/api") ++ "/")
      by (rewrite append_assoc; reflexivity).
    rewrite endsWith_append. apply (dropLast_append (base ++ "/api") "/"). }
  split; [exact H | split].
  - rewrite H. apply endsWith_append.
  - unfold API_BASE_URL.
    rewrite append_not_empty by discriminate.
    rewrite endsWith_append.
    change (Str.dropLast 4 (base ++ "/api"))
      with (Str.dropLast (String.length "/api") (base ++ "/api")).
    rewrite dropLast_append. reflexivity.
Qed.

(** A local server, with and without the slash. *)
Example API_BASE_URL_localhost :
  API_BASE_URL (Some "http://localhost:8787/api/") = "http://localhost:8787/api" /\
  request_url (Some "http://localhost:8787/api/") "/eval/submit"
    = "http://localhost:8787/api/v1/eval/submit" /\
  API_BASE_URL (Some "http://localhost:8787/api") = "http://localhost:8787" /\
  API_BASE_URL (Some "http://localhost:8787/") = "http://localhost:8787" /\
  API_BASE_URL None = "https://api.travrse.ai".
Proof.
  repeat split; vm_compute; reflexivity.
Qed.

(* ----------------------------------------------------------------- *)
(** ** The total cost *)


Lemma addStepCost_spec (acc : float) (s : StepResult) :
  addStepCost acc s = (acc + spec_stepCost s)%float.
Proof.
  unfold addStepCost, spec_stepCost.
  destruct (total_cost s), (totalCost s); reflexivity.
Qed.

Lemma fold_addStepCost (steps : list StepResult) (acc : float) :
  fold_left addStepCost steps acc
  = fold_left PrimFloat.add (map spec_stepCost steps) acc.
Proof.
  revert acc; induction steps as [| s steps IH]; intros acc; simpl.
  - reflexivity.
  - rewrite addStepCost_spec. apply IH.
Qed.

Lemma fold_records (recs : list (string * list StepResult)) (acc : float) :
  fold_left (fun total rec => fold_left addStepCost (snd rec) total) recs acc
  = fold_left PrimFloat.add (map spec_stepCost (flat_map snd recs)) acc.
Proof.
  revert acc; induction recs as [| r recs IH]; intros acc; simpl.
  - reflexivity.
  - rewrite map_app, fold_left_app, IH, fold_addStepCost. reflexivity.
Qed.

(** The keys in own-key order are the keys of the object, each once: the
    order moves properties, it neither drops nor repeats one. *)
Lemma insert_index_perm {A : Type} (n : Z) (p : string * A)
    (sorted : list (Z * (string * A))) :
  Permutation (insert_index n p sorted) ((n, p) :: sorted).
Proof.
  induction sorted as [| [m q] sorted IH]; simpl.
  - apply Permutation_refl.
  - destruct (n <? m).
    + apply Permutation_refl.
    + eapply Permutation_trans; [apply perm_skip, IH | apply perm_swap].
Qed.

Lemma index_keys_perm {A : Type} (props : list (string * A)) :
  Permutation (map snd (index_keys props))
    (filter (fun p => is_index (fst p)) props).
Proof.
  induction props as [| p props IH]; simpl.
  - apply Permutation_refl.
  - unfold is_index at 1. destruct (array_index (fst p)) as [n |].
    + eapply Permutation_trans.
      * apply Permutation_map, insert_index_perm.
      * simpl. apply perm_skip, IH.
    + exact IH.
Qed.

Lemma filter_both_perm {A : Type} (f : A -> bool) (l : list A) :
  Permutation (filter f l ++ filter (fun a => negb (f a)) l) l.
Proof.
  induction l as [| a l IH]; simpl.
  - apply Permutation_refl.
  - destruct (f a); simpl.
    + apply perm_skip, IH.
    + eapply Permutation_trans; [apply Permutation_sym, Permutation_middle |].
      apply perm_skip, IH.
Qed.

Lemma own_order_perm {A : Type} (props : list (string * A)) :
  Permutation (own_order props) props.
Proof.
  unfold own_order.
  eapply Permutation_trans; [| apply (filter_both_perm (fun p => is_index (fst p)))].
  apply Permutation_app_tail, index_keys_perm.
Qed.

(** C6. [calculateTotalCost(results)] is the sum of the cost of every step
    of every record of [results_by_record], each record once, a missing or
    [null] cost counting as 0: the sum runs from 0 through the records in
    own-key order, which lists every record of the map. It is 0 when the
    map is empty and when it is absent. *)
Theorem calculateTotalCost_is_sum (results : ResultSet) :
  (exists records : list (string * list StepResult),
     Permutation records (recordsOf results) /\
     records = own_order (recordsOf results) /\
     calculateTotalCost results = spec_sum (flat_map snd records)) /\
  calculateTotalCost results = spec_totalCost results /\
  (forall s : StepResult,
     total_cost s = None -> totalCost s = None -> spec_stepCost s = 0%float) /\
  (results_by_record results = Some [] -> calculateTotalCost results = 0%float) /\
  (results_by_record results = None -> calculateTotalCost results = 0%float).
Proof.
  unfold calculateTotalCost, spec_totalCost, spec_sum, allSteps, recordsOf.
  repeat split.
  - exists (own_order match results_by_record results with
                      | Some byRecord => byRecord
                      | None => []
                      end).
    split; [apply own_order_perm | split; [reflexivity |]].
    destruct (results_by_record results) as [byRecord |]; [apply fold_records | reflexivity].
  - destruct (results_by_record results) as [byRecord |]; [apply fold_records | reflexivity].
  - intros s H1 H2. unfold spec_stepCost. rewrite H1, H2. reflexivity.
  - intros H. rewrite H. reflexivity.
  - intros H. rewrite H. reflexivity.
Qed.

Lemma calculateTotalCost_is_sum_witness :
  calculateTotalCost threeRecords = 1.75%float /\
  calculateTotalCost (mkResults [] (Some [])) = 0%float /\
  calculateTotalCost (mkResults [] None) = 0%float /\
  spec_stepCost (mkStep [] None None) = 0%float.
Proof.
  split; [| split; [| split]].
  - exact (proj1 (proj2 (calculateTotalCost_is_sum threeRecords))).
  - apply (proj1 (proj2 (proj2 (proj2 (calculateTotalCost_is_sum (mkResults [] (Some []))))))).
    reflexivity.
  - apply (proj2 (proj2 (proj2 (proj2 (calculateTotalCost_is_sum (mkResults [] None)))))).
    reflexivity.
  - apply (proj1 (proj2 (proj2 (calculateTotalCost_is_sum (mkResults [] None)))));
      reflexivity.
Defined.

(** The record under the key ["7"] is summed first, then the other two as
    the document lists them; every step is counted. *)
Example calculateTotalCost_example :
  map fst (own_order (recordsOf threeRecords)) = [ "7"; "r1"; "r2" ] /\
  List.length (allSteps threeRecords) = 4%nat /\
  calculateTotalCost threeRecords = 1.75%float.
Proof. repeat split. Qed.

(* ----------------------------------------------------------------- *)
(** ** The two renderers of the detail tables *)

Lemma stdout_cons (text : string) (logged : list string) :
  Console.stdout (text :: logged) = text ++ nl ++ Console.stdout logged.
Proof.
  unfold Console.stdout. destruct logged as [| next logged]; cbn [map String.concat].
  - now rewrite append_empty_r.
  - change ("" ++ ?x) with x. now rewrite append_assoc.
Qed.

Lemma stdout_app (a b : list string) :
  Console.stdout (a ++ b) = Console.stdout a ++ Console.stdout b.
Proof.
  induction a as [| text a IH].
  - reflexivity.
  - rewrite <- app_comm_cons, !stdout_cons, IH, !append_assoc. reflexivity.
Qed.

(** Lines joined by line ends, and one more line end: each line printed. *)
Lemma join_lines (line : string) (lines : list string) :
  Str.join nl (line :: lines) ++ nl = Console.stdout (line :: lines).
Proof.
  revert line; induction lines as [| next lines IH]; intros line.
  - reflexivity.
  - rewrite stdout_cons, <- IH. unfold Str.join. simpl.
    now rewrite !append_assoc.
Qed.

(** A row of a table is the same text in both renderers, and the same
    exception when a cell cannot be converted. *)
Lemma stepLine_same (stepResult : StepResult) :
  Console.stepLine stepResult = Markdown.stepLine stepResult.
Proof. reflexivity. Qed.

(** The rows of a record: all of them logged when all of them can be
    built, and the exception of the first that cannot. *)
Lemma logSteps_rows (steps : list StepResult) :
  match mapR Markdown.stepLine steps with
  | Ok rows => Console.logSteps steps = (rows, None)
  | Throw e => snd (Console.logSteps steps) = Some e
  end.
Proof.
  induction steps as [| s steps IH]; cbn [mapR Console.logSteps]; [reflexivity |].
  change (Console.stepLine s) with (Markdown.stepLine s).
  destruct (Markdown.stepLine s) as [line | e]; cbn [bind]; [| reflexivity].
  destruct (mapR Markdown.stepLine steps) as [rows | e]; cbn [bind].
  - rewrite IH. reflexivity.
  - exact IH.
Qed.

(** The heading of a record is logged with its blank line in one call. *)
Lemma record_same (rec : string * list StepResult) :
  match Markdown.recordLines rec with
  | Ok lines =>
      exists logged : list string,
        Console.recordLogs rec = (logged, None) /\
        Console.stdout logged = Console.stdout lines
  | Throw e => snd (Console.recordLogs rec) = Some e
  end.
Proof.
  unfold Markdown.recordLines, Console.recordLogs.
  destruct (snd rec) as [| firstResult others].
  - exists []. split; reflexivity.
  - set (recordName := js_or (js_or _ _) _).
    destruct (toStr recordName) as [name | e]; cbn [bind]; [| reflexivity].
    pose proof (logSteps_rows (firstResult :: others)) as H.
    destruct (mapR Markdown.stepLine (firstResult :: others)) as [rows | e]; cbn [bind].
    + rewrite H. eexists. split; [reflexivity |].
      cbv zeta. cbn [fst app].
      rewrite !stdout_cons, !stdout_app, !stdout_cons, !append_assoc. reflexivity.
    + destruct (Console.logSteps (firstResult :: others)) as [rows thrown].
      cbn [snd] in H. subst thrown. reflexivity.
Qed.

Lemma records_same (records : list (string * list StepResult)) :
  match mapR Markdown.recordLines records with
  | Ok blocks =>
      exists logged : list string,
        Console.logRecords records = (logged, None) /\
        Console.stdout logged = Console.stdout (List.concat blocks)
  | Throw e => snd (Console.logRecords records) = Some e
  end.
Proof.
  induction records as [| rec records IH]; cbn [mapR Console.logRecords].
  - exists []. split; reflexivity.
  - pose proof (record_same rec) as H.
    destruct (Markdown.recordLines rec) as [lines | e]; cbn [bind].
    + destruct H as [logged [-> Hout]].
      destruct (mapR Markdown.recordLines records) as [blocks | e]; cbn [bind].
      * destruct IH as [more [-> Hmore]]. eexists. split; [reflexivity |].
        cbn [fst List.concat]. rewrite !stdout_app, Hout, Hmore. reflexivity.
      * exact IH.
    + destruct (Console.recordLogs rec) as [logged [thrown |]];
        cbn [snd] in H; [exact H | discriminate H].
Qed.

(** The two renderers on one ResultSet: when the markdown is built, the
    console prints it and a line end; when building it throws, printing it
    throws the same exception. *)
Lemma renderers_agree (results : ResultSet) :
  match Markdown.generateDetailedResultsMarkdown results with
  | Ok text =>
      exists logged : list string,
        Console.displayDetailedResults results = (logged, None) /\
        Console.stdout logged = text ++ nl
  | Throw e => snd (Console.displayDetailedResults results) = Some e
  end.
Proof.
  unfold Console.displayDetailedResults, Markdown.generateDetailedResultsMarkdown.
  set (evalName := js_or (js_or _ _) _).
  destruct (toStr evalName) as [name | e]; cbn [bind]; [| reflexivity].
  cbv zeta.
  remember (own_order _) as records eqn:E. clear E.
  destruct records as [| rec rest].
  - eexists. split; [reflexivity |].
    cbn [app]. rewrite join_lines, !stdout_cons, !append_assoc. reflexivity.
  - pose proof (records_same (rec :: rest)) as H.
    destruct (mapR Markdown.recordLines (rec :: rest)) as [blocks | e]; cbn [bind].
    + destruct H as [logged [-> Hout]]. eexists. split; [reflexivity |].
      cbn [fst app]. rewrite join_lines, !stdout_cons, Hout, !append_assoc. reflexivity.
    + exact H.
Qed.




(** The detail tables that were built can be printed. *)
Lemma displayAll_after_markdown (detailedResults : list ResultSet) :
  forall sections : list string,
    mapR Markdown.generateDetailedResultsMarkdown detailedResults = Ok sections ->
    snd (displayAll detailedResults) = None.
Proof.
  induction detailedResults as [| results rest IH]; cbn [mapR displayAll]; intros sections H.
  - reflexivity.
  - pose proof (renderers_agree results) as Hone.
    do 2 bind_ok H.
    destruct Hone as [logged [-> _]]. cbn [Console.logMore snd]. eapply IH. reflexivity.
Qed.

(* ----------------------------------------------------------------- *)
(** ** The API functions and the names of the fields *)

Lemma normalizeSubmission_names (s out : value) :
  normalizeSubmission s = Ok out -> own_names out = submissionNames.
Proof.
  unfold normalizeSubmission, member.
  destruct (nullish s); simpl; intros H; [discriminate |].
  injection H as <-. reflexivity.
Qed.

Lemma mapR_Forall {A B : Type} (f : A -> result B) (P : B -> Prop) :
  (forall a b, f a = Ok b -> P b) ->
  forall items out, mapR f items = Ok out -> Forall P out.
Proof.
  intros Hf. induction items as [| a items IH]; simpl; intros out H.
  - injection H as <-. constructor.
  - do 2 bind_ok H. injection H as <-. constructor; eauto.
Qed.

Lemma mapR_Forall2 {A B : Type} (f : A -> result B) :
  forall items out, mapR f items = Ok out -> Forall2 (fun a b => f a = Ok b) items out.
Proof.
  induction items as [| a items IH]; simpl; intros out H.
  - injection H as <-. constructor.
  - do 2 bind_ok H. injection H as <-. constructor; auto.
Qed.

Lemma mapR_length {A B : Type} (f : A -> result B) :
  forall items out, mapR f items = Ok out -> List.length out = List.length items.
Proof.
  induction items as [| a items IH]; simpl; intros out H.
  - injection H as <-. reflexivity.
  - do 2 bind_ok H. injection H as <-. simpl. f_equal. now apply IH.
Qed.

(** C2, as stated, fails: [getEvalBatches] and [getEvalResults] hand the
    server's document on as it came, camelCase names included. *)
Lemma getEvalBatches_keeps_camelCase :
  getEvalBatches (HttpJson camelListing) = Ok camelListing /\
  getEvalResults (HttpJson camelListing) = Ok camelListing /\
  field_names camelListing
    = [ "batches"; "batchExecutionId"; "evalName"; "status"; "totalRecords" ] /\
  forallb snake_case (field_names camelListing) = false.
Proof. repeat split. Qed.

(** C2, amended. Of the three API functions [submitEval] alone renames: when
    it returns, its value has the fields [eval_group_id], [total_evals] and
    [submissions], and every submission has the fields [eval_name],
    [batch_execution_id], [status] and [queue_name], one per submission of
    the response. [getEvalBatches] and [getEvalResults] return the server's
    document unchanged, under whichever names it uses. *)
Theorem submitEval_names (x : exchange) (v : value) :
  submitEval x = Ok v ->
  (own_names v = [ "eval_group_id"; "total_evals"; "submissions" ] /\
   forallb snake_case (own_names v) = true /\
   exists response submissions,
     x = HttpJson response /\
     get v "submissions" = VArr submissions /\
     Forall (fun s => own_names s = submissionNames) submissions /\
     List.length submissions
       = match js_or (get response "submissions") (VArr []) with
         | VArr items => List.length items
         | _ => O
         end) /\
  (forall body : value, getEvalBatches (HttpJson body) = Ok body) /\
  (forall body : value, getEvalResults (HttpJson body) = Ok body).
Proof.
  intros H. split; [| split; reflexivity].
  unfold submitEval in H.
  destruct x as [message | status statusText errorText | response |];
    cbn [makeRequest bind] in H; try discriminate.
  unfold member in H. destruct (nullish response); cbn [bind] in H; [discriminate |].
  cbv zeta in H. do 3 bind_ok H.
  destruct (js_or (get response "submissions") (VArr [])) as [| | | | | items |] eqn:Ej;
    try discriminate.
  destruct (mapR normalizeSubmission items) as [subs | e] eqn:Esubs; cbn [bind] in H;
    [| discriminate].
  injection H as <-. repeat split.
  exists response, subs. repeat split.
  - eapply mapR_Forall; [| exact Esubs]. intros ? ?. apply normalizeSubmission_names.
  - rewrite Ej. eapply mapR_length; exact Esubs.
Qed.

Example submitEval_camelCase :
  submitEval (HttpJson camelSubmitted)
  = Ok (VObj [ ("eval_group_id", VStr "g1");
               ("total_evals", VNum 1);
               ("submissions",
                VArr [ VObj [ ("eval_name", VStr "e1");
                              ("batch_execution_id", VStr "b1");
                              ("status", VStr "queued");
                              ("queue_name", VStr "default") ] ]) ]).
Proof. vm_compute. reflexivity. Qed.

Lemma submitEval_names_witness :
  own_names
    (VObj [ ("eval_group_id", VStr "g1");
            ("total_evals", VNum 1);
            ("submissions",
             VArr [ VObj [ ("eval_name", VStr "e1");
                           ("batch_execution_id", VStr "b1");
                           ("status", VStr "queued");
                           ("queue_name", VStr "default") ] ]) ])
  = [ "eval_group_id"; "total_evals"; "submissions" ].
Proof.
  apply (proj1 (proj1 (submitEval_names (HttpJson camelSubmitted) _ submitEval_camelCase))).
Defined.

(* ----------------------------------------------------------------- *)
(** ** Two names for one field *)

(** C3, as stated, fails: a snake_case value that is not [null] but falsy
    (the empty string, the number 0) gives way to the camelCase value. *)
Lemma normalizeSubmission_falsy_snake :
  get emptySnakeName "eval_name" = VStr "" /\
  nullish (get emptySnakeName "eval_name") = false /\
  normalizeSubmission emptySnakeName
    = Ok (VObj [ ("eval_name", VStr "nightly");
                 ("batch_execution_id", VStr "b1");
                 ("status", VStr "queued");
                 ("queue_name", VUndefined) ]) /\
  rowTotalRecords (VObj [ ("total_records", VNum 0); ("totalRecords", VNum 5) ])
    = VNum 5.
Proof. repeat split. Qed.

Lemma js_or_cases (a b : value) :
  (truthy a = true -> js_or a b = a) /\ (truthy a = false -> js_or a b = b).
Proof.
  unfold js_or. split; intros H; rewrite H; reflexivity.
Qed.

Lemma js_or_firstTruthy (s : value) (snake camel : string) (default : value) :
  js_or (js_or (get s snake) (get s camel)) default = firstTruthy s snake camel default.
Proof.
  unfold firstTruthy, js_or.
  destruct (truthy (get s snake)) eqn:E; [rewrite E |]; reflexivity.
Qed.

(** C3, amended. For the three pairs of names of a submission ([eval_name],
    [batch_execution_id], [queue_name] and their camelCase variants),
    [submitEval] exposes under the snake_case name the snake_case value
    whenever that value is truthy (not [null], [undefined], [false], 0, NaN
    or the empty string), and the camelCase value otherwise, which is
    [undefined] when that variant is absent: the submissions it returns are
    the submissions of the response, each normalized so. For the four pairs
    of the summary row ([eval_name], [total_records], [processed_records],
    [failed_records] and their variants) the cell is the first truthy value
    of the two, and the default of the cell, N/A or 0, when both are
    falsy. *)
Theorem normalization_first_truthy (s : value) (snake camel : string) :
  nullish s = false ->
  In (snake, camel) submissionPairs ->
  (exists out : value,
     normalizeSubmission s = Ok out /\
     (truthy (get s snake) = true -> get out snake = get s snake) /\
     (truthy (get s snake) = false -> get out snake = get s camel)) /\
  rowEvalName s = firstTruthy s "eval_name" "evalName" (VStr "N/A") /\
  rowTotalRecords s = firstTruthy s "total_records" "totalRecords" (VNum 0) /\
  rowProcessedRecords s
    = firstTruthy s "processed_records" "processedRecords" (VNum 0) /\
  rowFailedRecords s = firstTruthy s "failed_records" "failedRecords" (VNum 0) /\
  (forall response v : value,
     submitEval (HttpJson response) = Ok v ->
     exists items outs : list value,
       js_or (get response "submissions") (VArr []) = VArr items /\
       get v "submissions" = VArr outs /\
       Forall2 (fun submission out => normalizeSubmission submission = Ok out) items outs).
Proof.
  intros Hs Hin. split.
  - unfold normalizeSubmission, member. rewrite Hs. simpl bind.
    eexists. split; [reflexivity |].
    destruct Hin as [E | [E | [E | []]]]; injection E as <- <-;
      cbn [get lookup String.eqb Ascii.eqb Bool.eqb]; apply js_or_cases.
  - repeat split; try apply js_or_firstTruthy.
    intros response v H. unfold submitEval in H. cbn [makeRequest bind] in H.
    bind_ok H. cbv zeta in H. do 3 bind_ok H.
    destruct (js_or (get response "submissions") (VArr [])) as [| | | | | items |];
      try discriminate.
    bind_ok H. injection H as <-. eexists. eexists.
    split; [reflexivity | split; [reflexivity |]].
    eapply mapR_Forall2. eassumption.
Qed.

Lemma normalization_first_truthy_witness :
  (exists out : value,
     normalizeSubmission emptySnakeName = Ok out /\
     (truthy (get emptySnakeName "eval_name") = true ->
        get out "eval_name" = get emptySnakeName "eval_name") /\
     (truthy (get emptySnakeName "eval_name") = false ->
        get out "eval_name" = get emptySnakeName "evalName")) /\
  rowEvalName emptySnakeName = VStr "nightly" /\
  rowTotalRecords emptySnakeName = VNum 0.
Proof.
  pose proof (normalization_first_truthy emptySnakeName "eval_name" "evalName"
                eq_refl (or_introl eq_refl)) as [Hout [Hname [Htotal _]]].
  split; [exact Hout | split; [exact Hname | exact Htotal]].
Defined.

(* ----------------------------------------------------------------- *)
(** ** The cost cell of the summary table *)

Lemma length_repeat (c : ascii) (n : nat) : String.length (Str.repeat c n) = n.
Proof.
  induction n; simpl; congruence.
Qed.

Lemma length_substring (s : string) :
  forall n m : nat,
    (n + m <= String.length s)%nat -> String.length (String.substring n m s) = m.
Proof.
  induction s as [| c s IH]; intros [| n] [| m]; simpl; intros H;
    try reflexivity; try lia.
  - f_equal. apply (IH 0%nat m). simpl. lia.
  - apply IH. lia.
  - apply IH. lia.
Qed.

Lemma all_digits_append (a b : string) :
  all_digits (a ++ b) = all_digits a && all_digits b.
Proof.
  induction a as [| c a IH]; simpl.
  - reflexivity.
  - rewrite IH. apply andb_assoc.
Qed.

Lemma all_digits_repeat (n : nat) : all_digits (Str.repeat "0" n) = true.
Proof.
  induction n; simpl; auto.
Qed.

Lemma all_digits_substring (s : string) :
  forall n m : nat, all_digits s = true -> all_digits (String.substring n m s) = true.
Proof.
  induction s as [| c s IH]; intros [| n] [| m]; simpl; intros H; try reflexivity.
  - apply andb_true_iff in H as [Hc Hs]. rewrite Hc. apply IH, Hs.
  - apply andb_true_iff in H as [Hc Hs]. apply IH, Hs.
  - apply andb_true_iff in H as [Hc Hs]. apply IH, Hs.
Qed.

Lemma is_digit_digit (d : Z) : 0 <= d < 10 -> is_digit (Str.digit d) = true.
Proof.
  intros H. unfold is_digit, Str.digit.
  rewrite nat_ascii_embedding by lia.
  apply andb_true_iff. split; apply Nat.leb_le; lia.
Qed.

Lemma all_digits_fuel (fuel : nat) :
  forall (n : Z) (acc : string),
    all_digits acc = true -> all_digits (Str.digits_fuel fuel n acc) = true.
Proof.
  induction fuel as [| fuel IH]; intros n acc H; cbn [Str.digits_fuel].
  - exact H.
  - assert (Hd : is_digit (Str.digit (n mod 10)) = true)
      by (apply is_digit_digit, Z.mod_pos_bound; lia).
    destruct (n <? 10).
    + cbn [all_digits]. now rewrite Hd.
    + apply IH. cbn [all_digits]. now rewrite Hd.
Qed.

Lemma all_digits_of_Z (n : Z) : all_digits (Str.of_Z_digits n) = true.
Proof.
  apply all_digits_fuel. reflexivity.
Qed.

(** [toFixed(4)] on a number that takes the decimal notation. *)
Lemma fixed_digits_four (n : Z) : fourDecimals (Num.fixed_digits 4 n).
Proof.
  unfold Num.fixed_digits. cbn [Nat.eqb].
  set (ds := if (String.length (Str.of_Z_digits n) <=? 4)%nat
             then Str.repeat "0" (4 + 1 - String.length (Str.of_Z_digits n))
                  ++ Str.of_Z_digits n
             else Str.of_Z_digits n).
  assert (Hd : all_digits ds = true).
  { unfold ds. destruct (_ <=? _)%nat.
    - now rewrite all_digits_append, all_digits_repeat, all_digits_of_Z.
    - apply all_digits_of_Z. }
  assert (Hk : (5 <= String.length ds)%nat).
  { unfold ds. destruct (String.length (Str.of_Z_digits n) <=? 4)%nat eqn:E.
    - apply Nat.leb_le in E. rewrite length_append, length_repeat. lia.
    - apply Nat.leb_gt in E. lia. }
  exists (String.substring 0 (String.length ds - 4) ds),
         (String.substring (String.length ds - 4) 4 ds).
  split; [reflexivity | split; [| split; [| split]]].
  - intros E. apply (f_equal String.length) in E.
    rewrite length_substring in E by lia. simpl in E. lia.
  - now apply all_digits_substring.
  - apply length_substring. lia.
  - now apply all_digits_substring.
Qed.

Lemma toFixed_four (x : float) :
  (0 <? x)%float = true -> belowE21 x = true -> fourDecimals (Num.toFixed 4 x).
Proof.
  unfold Num.toFixed, belowE21. rewrite FloatAxioms.ltb_spec.
  destruct (Prim2SF x) as [s | s | | s m e]; intros Hpos Hbelow;
    try discriminate Hbelow; try (vm_compute in Hpos; discriminate Hpos).
  destruct s; [vm_compute in Hpos; discriminate Hpos |].
  unfold Num.Qltb in Hbelow. apply negb_true_iff in Hbelow.
  unfold Num.Qleb. rewrite Hbelow.
  change ("" ++ ?t) with t. apply fixed_digits_four.
Qed.

(** C4, as stated, fails: with the results fetched and a total of zero the
    cell reads N/A, not the formatted zero. *)
Lemma summary_zero_cost_is_NA :
  lookup "b1" [ ("b1", zeroCostResults) ] = Some zeroCostResults /\
  formatCost (Some (calculateTotalCost zeroCostResults)) = "$0.0000" /\
  generateSummaryTable [ sampleBatch ] (Some [ ("b1", zeroCostResults) ])
    = Ok (Str.join nl (summaryHeader ++ [ "| e1 | 1 | 1 | 0 | completed | N/A |"; "" ])).
Proof. repeat split; vm_compute; reflexivity. Qed.

(** C4, amended. Take a batch whose cells can be converted to text, and the
    table of the fetched results, keyed by the text of the batch id
    ([batch_execution_id], or [batchExecutionId] when that is falsy). The
    Total Cost cell of the row is a dollar sign and the total of the results
    fetched under that key, as [toFixed(4)] writes it, when that total is
    greater than 0: digits, a point and four decimals for a total below
    10^21. It is N/A when no results were fetched under the key, when the
    total is not greater than 0, and when there is no table. The other
    cells do not depend on the results. *)
Theorem summaryRow_cost_cell
    (batch : value) (name total processed failed state : string) :
  nullish batch = false ->
  toStr (rowEvalName batch) = Ok name ->
  toStr (rowTotalRecords batch) = Ok total ->
  toStr (rowProcessedRecords batch) = Ok processed ->
  toStr (rowFailedRecords batch) = Ok failed ->
  toStr (get batch "status") = Ok state ->
  let cells := "| " ++ name ++ " | " ++ total ++ " | " ++ processed ++ " | " ++
               failed ++ " | " ++ state ++ " | " in
  summaryRow batch None = Ok (cells ++ "N/A |") /\
  forall (detailedResultsMap : list (string * ResultSet)) (key : string),
    toStr (js_or (get batch "batch_execution_id") (get batch "batchExecutionId")) = Ok key ->
    match lookup key detailedResultsMap with
    | Some results =>
        let cost := calculateTotalCost results in
        if (0 <? cost)%float
        then summaryRow batch (Some detailedResultsMap)
             = Ok (cells ++ "$" ++ Num.toFixed 4 cost ++ " |") /\
             (belowE21 cost = true -> fourDecimals (Num.toFixed 4 cost))
        else summaryRow batch (Some detailedResultsMap) = Ok (cells ++ "N/A |")
    | None => summaryRow batch (Some detailedResultsMap) = Ok (cells ++ "N/A |")
    end.
Proof.
  intros Hb Hname Htotal Hprocessed Hfailed Hstate cells.
  assert (Hrow : forall (m : option (list (string * ResultSet))) (cost : float),
             batchTotalCost
               (js_or (get batch "batch_execution_id") (get batch "batchExecutionId")) m
             = Ok cost ->
             summaryRow batch m = Ok (cells ++ costCell cost ++ " |")).
  { intros m cost Hcost. unfold summaryRow, member. rewrite Hb. cbn [bind].
    rewrite Hcost. cbn [bind]. cbv zeta.
    rewrite Hname, Htotal, Hprocessed, Hfailed, Hstate. cbn [bind].
    unfold cells. rewrite !append_assoc. reflexivity. }
  split.
  - apply (Hrow None 0%float). reflexivity.
  - intros m key Hkey.
    destruct (lookup key m) as [results |] eqn:Hlookup.
    + cbv zeta.
      assert (Hcost : summaryRow batch (Some m)
                      = Ok (cells ++ costCell (calculateTotalCost results) ++ " |")).
      { apply Hrow. unfold batchTotalCost. rewrite Hkey. cbn [bind].
        rewrite Hlookup. reflexivity. }
      unfold costCell, formatCost in Hcost.
      destruct (0 <? calculateTotalCost results)%float eqn:Hpos.
      * split; [exact Hcost |]. intros Hbelow. now apply toFixed_four.
      * exact Hcost.
    + apply (Hrow (Some m) 0%float). unfold batchTotalCost. rewrite Hkey. cbn [bind].
      rewrite Hlookup. reflexivity.
Qed.

Lemma summaryRow_cost_cell_witness :
  summaryRow sampleBatch (Some [ ("b1", halfResults) ])
  = Ok ("| e1 | 1 | 1 | 0 | completed | $0.5000 |") /\
  fourDecimals "0.5000".
Proof.
  pose proof (proj2 (summaryRow_cost_cell sampleBatch "e1" "1" "1" "0" "completed"
                       eq_refl eq_refl eq_refl eq_refl eq_refl eq_refl)
                [ ("b1", halfResults) ] "b1" eq_refl) as H.
  vm_compute in H. destruct H as [Hrow Hfour]. split.
  - vm_compute. exact Hrow.
  - apply Hfour. reflexivity.
Defined.

(** The scenario of the specification: one record with one step of 0.0123. *)
Example summary_scenario :
  generateSummaryTable
    [ VObj [ ("batch_execution_id", VStr "b1"); ("eval_name", VStr "e1");
             ("status", VStr "completed") ] ]
    (Some [ ("b1",
             mkResults []
               (Some [ ("r1", [ mkStep [] (Some 0x1.930be0ded288dp-7%float) None ]) ])) ])
  = Ok (Str.join nl (summaryHeader ++ [ "| e1 | 0 | 0 | 0 | completed | $0.0123 |"; "" ])).
Proof. vm_compute. reflexivity. Qed.

(** From 10^21 on the cell is not a decimal with four places. *)
Example summary_large_cost :
  costCell 1e21%float = "$1e+21" /\ belowE21 1e21%float = false.
Proof. split; vm_compute; reflexivity. Qed.

(* ----------------------------------------------------------------- *)
(** ** The poll loop *)

(** A value that is not an array or an object is converted to text without
    an exception. *)
Lemma primitive_printable (v : value) : primitive v = true -> printable v = true.
Proof.
  destruct v; try discriminate; reflexivity.
Qed.

(** Values that [includes] finds equal are not arrays or objects. *)
Lemma sameValueZero_primitive (a b : value) :
  sameValueZero a b = true -> primitive a = true /\ primitive b = true.
Proof.
  destruct a, b; try discriminate; split; reflexivity.
Qed.


(** Values that can be converted are converted, all of them. *)
Lemma mapR_toStr_printable (values : list value) :
  forallb printable values = true ->
  exists texts : list string, mapR toStr values = Ok texts.
Proof.
  induction values as [| v values IH]; cbn [forallb mapR]; intros H.
  - now exists [].
  - apply andb_true_iff in H as [Hv Hrest].
    destruct (IH Hrest) as [texts ->].
    unfold printable in Hv. destruct (toStr v) as [text | e]; [| discriminate].
    cbn [bind]. now eexists.
Qed.

(** A finished batch has a status that is a string. *)
Lemma finished_printable (batch : value) :
  finished batch = true -> printable (get batch "status") = true.
Proof.
  unfold finished, is_string.
  destruct (get batch "status"); try discriminate; reflexivity.
Qed.

Lemma forallb_impl {A : Type} (p q : A -> bool) (l : list A) :
  (forall a, p a = true -> q a = true) -> forallb p l = true -> forallb q l = true.
Proof.
  intros H. rewrite !forallb_forall. auto.
Qed.

(** Counting the statuses does not throw when each can be converted. *)
Lemma statuses_printable (batches : list value) :
  forallb (fun batch => printable (get batch "status")) batches = true ->
  exists texts : list string,
    mapR (fun batch => toStr (get batch "status")) batches = Ok texts.
Proof.
  induction batches as [| b batches IH]; cbn [forallb mapR]; intros H.
  - now exists [].
  - apply andb_true_iff in H as [Hb Hrest].
    destruct (IH Hrest) as [texts ->].
    unfold printable in Hb. destruct (toStr (get b "status")) as [text | e]; [| discriminate].
    cbn [bind]. now eexists.
Qed.

Section PollLoop.

Variable MAX_WAIT_MS : option Z.
Variable batchIds : list value.
Variable startTime : Z.

(** The filter keeps the batches that carry one of our ids. *)
Lemma filterR_present (batches : list value) :
  present_all batches = true ->
  filterR (isOurs batchIds) batches
  = Ok (filter (fun b => includes batchIds (batchIdOf b)) batches).
Proof.
  induction batches as [| b batches IH]; simpl; intros H.
  - reflexivity.
  - apply andb_true_iff in H as [Hb Hrest].
    unfold isOurs at 1, member. apply negb_true_iff in Hb. rewrite Hb.
    cbn [bind]. rewrite (IH Hrest). reflexivity.
Qed.

(** One iteration on a response that can be read. *)
Lemma pollOnce_listing (body : value) (batches : list value) :
  nullish body = false ->
  get body "batches" = VArr batches ->
  present_all batches = true ->
  let ours := filter (fun b => includes batchIds (batchIdOf b)) batches in
  forallb (fun batch => printable (get batch "status")) ours = true ->
  pollOnce batchIds (HttpJson body) = Ok (ours, forallb finished ours).
Proof.
  intros Hbody Hget Hpresent ours Hstatus.
  unfold pollOnce, getEvalBatches, member. cbn [makeRequest bind].
  rewrite Hbody, Hget. cbn [bind js_or truthy].
  rewrite (filterR_present _ Hpresent). cbn [bind]. fold ours.
  destruct (statuses_printable ours Hstatus) as [texts ->]. reflexivity.
Qed.

(** An iteration whose request fails is retried, whatever the failure. *)
Lemma unfinished_failure (x : exchange) (e : error) :
  makeRequest x = Throw e -> unfinished batchIds x = true.
Proof.
  intros H. unfold unfinished, pollOnce, getEvalBatches. rewrite H. reflexivity.
Qed.

(** Iterations that do not end the loop cost one request each. *)
Lemma pollLoop_retried (before world : list tick) :
  forallb (retried MAX_WAIT_MS batchIds startTime) before = true ->
  forall calls : nat,
    pollLoop MAX_WAIT_MS batchIds startTime (before ++ world) calls
    = pollLoop MAX_WAIT_MS batchIds startTime world (calls + List.length before).
Proof.
  induction before as [| [now x] before IH]; simpl; intros H calls.
  - f_equal. lia.
  - apply andb_true_iff in H as [Ht Hrest].
    unfold retried, unfinished in Ht. simpl in Ht.
    apply andb_true_iff in Ht as [Hnow Hx]. apply negb_true_iff in Hnow.
    rewrite Hnow.
    destruct (pollOnce batchIds x) as [[ours [|]] | e]; try discriminate;
      rewrite (IH Hrest); f_equal; lia.
Qed.

(** The loop never runs past the deadline: an iteration that starts after
    the maximum wait throws, without a request. *)
Lemma pollLoop_deadline (now : Z) (x : exchange) (later : list tick) (calls : nat) :
  exceeds (now - startTime) MAX_WAIT_MS = true ->
  pollLoop MAX_WAIT_MS batchIds startTime ((now, x) :: later) calls
  = (Thrown MaximumWaitExceeded, calls).
Proof.
  intros H. cbn [pollLoop]. rewrite H. reflexivity.
Qed.

Lemma sameValueZero_includes (id v : value) :
  In id batchIds -> sameValueZero id v = true -> includes batchIds v = true.
Proof.
  intros Hin Hsame. unfold includes. apply existsb_exists. now exists id.
Qed.

(** The batches kept by the filter still list every id. *)
Lemma listsAll_filter (batches : list value) :
  listsAll batchIds batches = true ->
  listsAll batchIds (filter (fun b => includes batchIds (batchIdOf b)) batches) = true.
Proof.
  unfold listsAll. rewrite !forallb_forall. intros H id Hid.
  specialize (H id Hid). apply existsb_exists in H as [b [Hb Hsame]].
  apply existsb_exists. exists b. split; [| exact Hsame].
  apply filter_In. split; [exact Hb |].
  now apply sameValueZero_includes with (id := id).
Qed.

(** Ids that are all listed are not arrays or objects. *)
Lemma listsAll_printable (batches : list value) :
  listsAll batchIds batches = true -> forallb printable batchIds = true.
Proof.
  unfold listsAll. rewrite !forallb_forall. intros H id Hid.
  specialize (H id Hid). apply existsb_exists in H as [b [_ Hsame]].
  apply primitive_printable. now apply sameValueZero_primitive in Hsame.
Qed.

End PollLoop.

Lemma mapR_member_present (submissions : list value) (k : string) :
  present_all submissions = true ->
  mapR (fun s => member s k) submissions = Ok (map (fun s => get s k) submissions).
Proof.
  induction submissions as [| s submissions IH]; simpl; intros H.
  - reflexivity.
  - apply andb_true_iff in H as [Hs Hrest]. apply negb_true_iff in Hs.
    unfold member at 1. rewrite Hs. cbn [bind]. rewrite (IH Hrest). reflexivity.
Qed.

(** With submissions that are there and ids that can be used as keys, the
    function is its loop. *)
Lemma pollForCompletion_loop (MAX_WAIT_MS : option Z) (submissions : list value)
    (startTime : Z) (world : list tick) :
  present_all submissions = true ->
  forallb printable (map (fun s => get s "batch_execution_id") submissions) = true ->
  pollForCompletion MAX_WAIT_MS submissions startTime world
  = pollLoop MAX_WAIT_MS (map (fun s => get s "batch_execution_id") submissions)
      startTime world 0.
Proof.
  intros Hsubs Hids. unfold pollForCompletion.
  rewrite (mapR_member_present _ _ Hsubs).
  destruct (mapR_toStr_printable _ Hids) as [keys ->]. reflexivity.
Qed.

Lemma filter_none {A : Type} (p : A -> bool) (l : list A) :
  forallb (fun a => negb (p a)) l = true -> filter p l = [].
Proof.
  induction l as [| a l IH]; simpl; intros H.
  - reflexivity.
  - apply andb_true_iff in H as [Ha Hl]. apply negb_true_iff in Ha.
    rewrite Ha. exact (IH Hl).
Qed.

(** C1. Take submissions whose ids can be used as property keys (strings,
    numbers and the like). When the first response, read within the maximum
    wait, lists no batch that carries a submitted id, the loop returns the
    empty list after that one request, whatever the later responses and the
    clock would have been: it does not wait for the deadline, and it does not
    throw. *)
Theorem pollForCompletion_unlisted_returns
    (MAX_WAIT_MS : option Z) (submissions : list value) (startTime now : Z)
    (body : value) (batches : list value) (later : list tick) :
  let batchIds := map (fun s => get s "batch_execution_id") submissions in
  present_all submissions = true ->
  forallb printable batchIds = true ->
  exceeds (now - startTime) MAX_WAIT_MS = false ->
  nullish body = false ->
  get body "batches" = VArr batches ->
  present_all batches = true ->
  forallb (fun b => negb (includes batchIds (batchIdOf b))) batches = true ->
  pollForCompletion MAX_WAIT_MS submissions startTime ((now, HttpJson body) :: later)
    = (Returned [], 1%nat).
Proof.
  intros batchIds Hsubs Hids Hnow Hbody Hget Hpresent Hnone.
  rewrite (pollForCompletion_loop _ _ _ _ Hsubs Hids).
  fold batchIds. cbn [pollLoop]. rewrite Hnow.
  rewrite (pollOnce_listing batchIds body batches Hbody Hget Hpresent);
    rewrite (filter_none _ _ Hnone); reflexivity.
Qed.

Lemma pollForCompletion_unlisted_returns_witness :
  pollForCompletion (Some 1800000) [ submitted "b1"; submitted "b2" ] 0
      [ (0, listing [ listed "b0" "running" ]);
        (5000, listing [ listed "b1" "running"; listed "b2" "running" ]) ]
    = (Returned [], 1%nat).
Proof.
  apply (pollForCompletion_unlisted_returns (Some 1800000)
           [ submitted "b1"; submitted "b2" ] 0 0
           (VObj [ ("batches", VArr [ listed "b0" "running" ]) ])
           [ listed "b0" "running" ]
           [ (5000, listing [ listed "b1" "running"; listed "b2" "running" ]) ]);
    reflexivity.
Defined.

(** With two batches submitted and a response that lists one of them as
    completed, the loop returns that one batch. *)
Example pollForCompletion_one_of_two (later : list tick) :
  pollForCompletion (Some 1800000) [ submitted "b1"; submitted "b2" ] 0
      ((0, listing [ listed "b1" "completed" ]) :: later)
    = (Returned [ listed "b1" "completed" ], 1%nat).
Proof. reflexivity. Qed.

(** An id that cannot be used as a property key ends the function before
    its first request. *)
Example pollForCompletion_unprintable_id (world : list tick) :
  pollForCompletion (Some 1800000)
      [ VObj [ ("batch_execution_id", unprintable) ] ] 0 world
    = (Thrown TypeError, 0%nat).
Proof. reflexivity. Qed.

(** C5, as stated, fails: the batch is listed as completed in the second
    response, but that iteration starts after the maximum wait and the
    loop throws instead of returning. *)
Lemma pollForCompletion_deadline_first :
  listsAll [ VStr "b1" ] [ listed "b1" "completed" ] = true /\
  forallb finished [ listed "b1" "completed" ] = true /\
  pollForCompletion (Some 1800000) [ submitted "b1" ] 0
      [ (0, listing [ listed "b1" "running" ]);
        (1800001, listing [ listed "b1" "completed" ]) ]
    = (Thrown MaximumWaitExceeded, 1%nat).
Proof. repeat split. Qed.

(** C5, amended. Take a response of the status endpoint that lists every
    submitted id, with every batch of the submitted set in it completed or
    failed. If its iteration and the ones before it start within the
    maximum wait, and each earlier iteration failed or showed one of our
    batches unfinished, then [pollForCompletion] returns exactly the
    batches of that response whose id is in the submitted set, every
    submitted id among them, after one request per iteration; the later
    responses are not asked for. *)
Theorem pollForCompletion_returns_finished
    (MAX_WAIT_MS : option Z) (submissions : list value) (startTime : Z)
    (before : list tick) (now : Z) (body : value) (batches : list value)
    (after : list tick) :
  let batchIds := map (fun s => get s "batch_execution_id") submissions in
  let ours := filter (fun b => includes batchIds (batchIdOf b)) batches in
  present_all submissions = true ->
  forallb (retried MAX_WAIT_MS batchIds startTime) before = true ->
  exceeds (now - startTime) MAX_WAIT_MS = false ->
  nullish body = false ->
  get body "batches" = VArr batches ->
  present_all batches = true ->
  listsAll batchIds batches = true ->
  forallb finished ours = true ->
  pollForCompletion MAX_WAIT_MS submissions startTime
      (before ++ (now, HttpJson body) :: after)
    = (Returned ours, S (List.length before)) /\
  listsAll batchIds ours = true.
Proof.
  intros batchIds ours Hsubs Hbefore Hnow Hbody Hget Hpresent Hall Hfinished.
  split; [| now apply listsAll_filter].
  rewrite (pollForCompletion_loop _ _ _ _ Hsubs (listsAll_printable _ _ Hall)).
  fold batchIds. rewrite (pollLoop_retried _ _ _ _ _ Hbefore).
  cbn [pollLoop]. rewrite Hnow.
  rewrite (pollOnce_listing batchIds body batches Hbody Hget Hpresent).
  - fold ours. rewrite Hfinished. reflexivity.
  - fold ours. revert Hfinished. apply forallb_impl. apply finished_printable.
Qed.

Lemma pollForCompletion_returns_finished_witness :
  pollForCompletion (Some 1800000) [ submitted "b1" ] 0
      ([ (0, listing [ listed "b1" "running" ]); (5000, NoResponse "network") ]
       ++ (10000, HttpJson (VObj [ ("batches",
                                    VArr [ listed "b0" "running";
                                           listed "b1" "completed" ]) ]))
       :: [ (15000, HttpNotJson) ])
    = (Returned [ listed "b1" "completed" ], 3%nat) /\
  listsAll [ VStr "b1" ] [ listed "b1" "completed" ] = true.
Proof.
  apply (pollForCompletion_returns_finished (Some 1800000) [ submitted "b1" ] 0
           [ (0, listing [ listed "b1" "running" ]); (5000, NoResponse "network") ]
           10000
           (VObj [ ("batches", VArr [ listed "b0" "running"; listed "b1" "completed" ]) ])
           [ listed "b0" "running"; listed "b1" "completed" ]
           [ (15000, HttpNotJson) ]); reflexivity.
Defined.

(* ================================================================= *)
(** * Further properties *)

(* ----------------------------------------------------------------- *)
(** ** The order of the records *)

Lemma insert_index_In {A : Type} (n : Z) (p : string * A)
    (sorted : list (Z * (string * A))) (q : Z * (string * A)) :
  In q (insert_index n p sorted) <-> q = (n, p) \/ In q sorted.
Proof.
  induction sorted as [| [m r] sorted IH]; simpl.
  - intuition.
  - destruct (n <? m); simpl; [intuition |].
    rewrite IH. intuition.
Qed.

Lemma index_keys_In {A : Type} (props : list (string * A)) (q : Z * (string * A)) :
  In q (index_keys props) -> In (snd q) props.
Proof.
  induction props as [| p props IH]; simpl; [tauto |].
  destruct (array_index (fst p)); [| now right; apply IH].
  rewrite insert_index_In. intros [-> | H]; [now left | right; now apply IH].
Qed.

(** The keys in their own order introduce no property. *)
Lemma own_order_In {A : Type} (props : list (string * A)) (p : string * A) :
  In p (own_order props) -> In p props.
Proof.
  unfold own_order. rewrite in_app_iff, in_map_iff, filter_In.
  intros [[q [<- Hq]] | [H _]]; [now apply index_keys_In | exact H].
Qed.

Lemma insert_index_not_nil {A : Type} (n : Z) (p : string * A)
    (sorted : list (Z * (string * A))) :
  insert_index n p sorted <> [].
Proof.
  destruct sorted as [| [m q] sorted]; simpl; [discriminate |].
  destruct (n <? m); discriminate.
Qed.

(** An object with a property has a first key. *)
Lemma own_order_not_nil {A : Type} (props : list (string * A)) :
  props <> [] -> own_order props <> [].
Proof.
  destruct props as [| p props]; [congruence |]. intros _.
  unfold own_order, is_index. simpl.
  destruct (array_index (fst p)) as [n |]; simpl.
  - destruct (insert_index n p (index_keys props)) eqn:E.
    + now apply insert_index_not_nil in E.
    + discriminate.
  - destruct (map snd (index_keys props)); discriminate.
Qed.

(* ----------------------------------------------------------------- *)
(** ** truncateText keeps the limit, from 3 on *)

(** X1. For every value and every limit of at least 3, the text
    [truncateText] returns is no longer than the limit. Below 3 the limit
    is not kept: a non-empty string longer than the limit becomes the three
    dots. *)
Theorem truncateText_within_limit (v : value) (s : string) (maxLength : Z) :
  (3 <= maxLength ->
     Z.of_nat (String.length (truncateText v maxLength)) <= maxLength) /\
  (maxLength < 3 -> maxLength < Z.of_nat (String.length s) -> s <> "" ->
     truncateText (VStr s) maxLength = "...").
Proof.
  split.
  - intros Hmax. unfold truncateText.
    destruct (truthy v); cbn [negb]; [| simpl; lia].
    set (text := match v with
                 | VStr t => t
                 | _ => match stringify v with Some t => t | None => "" end
                 end).
    destruct (Z.of_nat (String.length text) <=? maxLength) eqn:L; [lia |].
    unfold Str.substring0. rewrite length_append, length_prefix by lia.
    simpl String.length. lia.
  - intros Hmax Hlen Hs. unfold truncateText. simpl truthy.
    apply String.eqb_neq in Hs. rewrite Hs. cbn [negb].
    destruct (Z.of_nat (String.length s) <=? maxLength) eqn:L; [lia |].
    unfold Str.substring0.
    replace (Z.to_nat (maxLength - 3)) with O by lia.
    destruct s; reflexivity.
Qed.

Lemma truncateText_within_limit_witness :
  Z.of_nat (String.length (truncateText (VArr [ VStr "a"; VNull ]) 5)) <= 5 /\
  truncateText (VStr "abc") 2 = "...".
Proof.
  split.
  - apply (proj1 (truncateText_within_limit (VArr [ VStr "a"; VNull ]) "" 5)). lia.
  - apply (proj2 (truncateText_within_limit VNull "abc" 2)).
    + lia.
    + simpl. lia.
    + discriminate.
Defined.

(* ----------------------------------------------------------------- *)
(** ** The base URL loses its end only *)

Lemma substring_split (n : nat) (s : string) :
  (n <= String.length s)%nat ->
  s = String.substring 0 n s ++ String.substring n (String.length s - n) s.
Proof.
  revert s; induction n as [| n IH]; intros s Hn.
  - rewrite Nat.sub_0_r, (prefix_all (String.length s) s) by lia.
    destruct s; reflexivity.
  - destruct s as [| ch s]; simpl in *; [lia |].
    f_equal. apply IH. lia.
Qed.

(** A string that ends with a suffix is the rest and the suffix. *)
Lemma endsWith_split (s suffix : string) :
  Str.endsWith s suffix = true ->
  s = Str.dropLast (String.length suffix) s ++ suffix.
Proof.
  unfold Str.endsWith, Str.dropLast. intros H.
  apply andb_true_iff in H as [Hle Heq].
  apply Nat.leb_le in Hle. apply String.eqb_eq in Heq.
  etransitivity;
    [apply (substring_split (String.length s - String.length suffix) s); lia |].
  f_equal.
  replace (String.length s - (String.length s - String.length suffix))%nat
    with (String.length suffix) by lia.
  exact Heq.
Qed.

(** X2. The base URL is the configured value (the default when the variable
    is unset or empty) without an end that is one of: nothing, a slash,
    ["/api"], or ["//api"]. Nothing else of the value is changed. *)
Theorem API_BASE_URL_trims_end (TRAVRSE_API_URL : option string) :
  exists suffix : string,
    In suffix [ ""; "/"; "/api"; "//api" ] /\
    configuredUrl TRAVRSE_API_URL = API_BASE_URL TRAVRSE_API_URL ++ suffix.
Proof.
  unfold API_BASE_URL. fold (configuredUrl TRAVRSE_API_URL).
  set (url := configuredUrl TRAVRSE_API_URL).
  destruct (Str.endsWith url "/api") eqn:Eapi.
  - apply endsWith_split in Eapi. cbn [String.length] in Eapi.
    set (base := Str.dropLast 4 url) in *.
    destruct (Str.endsWith base "/") eqn:Eslash.
    + apply endsWith_split in Eslash. cbn [String.length] in Eslash.
      exists "//api". split; [simpl; tauto |].
      rewrite Eapi, Eslash at 1. rewrite append_assoc. reflexivity.
    + exists "/api". split; [simpl; tauto | exact Eapi].
  - destruct (Str.endsWith url "/") eqn:Eslash.
    + apply endsWith_split in Eslash. cbn [String.length] in Eslash.
      exists "/". split; [simpl; tauto | exact Eslash].
    + exists "". split; [simpl; tauto | now rewrite append_empty_r].
Qed.

(* ----------------------------------------------------------------- *)
(** ** The one exception of the conversion to text *)

(** Whatever cannot be converted to text throws a TypeError. *)
Lemma toStr_TypeError :
  forall (v : value) (e : error), toStr v = Throw e -> e = TypeError.
Proof.
  fix IH 1. intros [| | b | x | s | items | props] e; cbn [toStr]; try discriminate.
  - intros H.
    assert (Hitems : forall e' : error,
               (fix each (l : list value) : result (list string) :=
                  match l with
                  | [] => Ok []
                  | v :: rest =>
                      part <- (if nullish v then Ok "" else toStr v) ;;
                      parts <- each rest ;;
                      Ok (part :: parts)
                  end) items = Throw e' -> e' = TypeError).
    { clear H. induction items as [| v items IHitems]; intros e' H'; [discriminate |].
      destruct (nullish v).
      - cbn [bind] in H'.
        destruct ((fix each (l : list value) : result (list string) := _) items)
          as [parts | e'']; cbn [bind] in H'; [discriminate |].
        injection H' as <-. now apply IHitems.
      - destruct (toStr v) as [part | e''] eqn:Ev; cbn [bind] in H'.
        + destruct ((fix each (l : list value) : result (list string) := _) items)
            as [parts | e''']; cbn [bind] in H'; [discriminate |].
          injection H' as <-. now apply IHitems.
        + injection H' as <-. exact (IH v e'' Ev). }
    destruct ((fix each (l : list value) : result (list string) := _) items)
      as [parts | e']; cbn [bind] in H; [discriminate |].
    injection H as <-. now apply Hitems.
  - destruct (lookup "toString" props); intros H; [| discriminate].
    now injection H as <-.
Qed.

Lemma printable_true (v : value) :
  printable v = true -> exists text : string, toStr v = Ok text.
Proof.
  unfold printable. destruct (toStr v) as [text | e]; [eauto | discriminate].
Qed.

(** Converting a list of values: all of them can be converted, or the
    first that cannot throws. *)
Lemma mapR_toStr_cases (values : list value) :
  match mapR toStr values with
  | Ok _ => forallb printable values = true
  | Throw e => e = TypeError /\ forallb printable values = false
  end.
Proof.
  induction values as [| v values IH]; cbn [mapR forallb]; [reflexivity |].
  change (printable v) with (match toStr v with Ok _ => true | Throw _ => false end).
  destruct (toStr v) as [text | e] eqn:E; cbn [bind andb].
  - destruct (mapR toStr values) as [texts | e']; cbn [bind]; exact IH.
  - split; [now apply toStr_TypeError in E | reflexivity].
Qed.

(* ----------------------------------------------------------------- *)
(** ** When submitEval succeeds *)

Lemma mapR_ok_iff {A B : Type} (f : A -> result B) (p : A -> bool) :
  (forall a, (exists b, f a = Ok b) <-> p a = true) ->
  forall items, (exists out, mapR f items = Ok out) <-> forallb p items = true.
Proof.
  intros Hf. induction items as [| a items IH]; simpl.
  - split; [reflexivity | intros _; now exists []].
  - rewrite andb_true_iff, <- IH, <- Hf. split.
    + intros [out H]. do 2 bind_ok H. split; eauto.
    + intros [[b Hb] [bs Hbs]]. rewrite Hb, Hbs. simpl. eauto.
Qed.

Lemma normalizeSubmission_ok_iff (s : value) :
  (exists out, normalizeSubmission s = Ok out) <-> negb (nullish s) = true.
Proof.
  unfold normalizeSubmission, member. destruct (nullish s); simpl; split.
  - intros [out H]. discriminate.
  - discriminate.
  - reflexivity.
  - intros _. eauto.
Qed.




(** X3. [submitEval] returns exactly when the server answers with a JSON
    document that is not [null], whose group id and number of evals can be
    converted to text for the lines the function logs, and whose
    [submissions] are missing (or falsy) or an array without [null]
    elements. Otherwise it throws; when the request itself fails, it throws
    the error of the request, status and body included. *)
Theorem submitEval_succeeds_iff (x : exchange) :
  ((exists v : value, submitEval x = Ok v) <->
   (exists response : value,
      x = HttpJson response /\
      nullish response = false /\
      printable (js_or (get response "eval_group_id") (get response "evalGroupId")) = true /\
      printable (js_or (get response "total_evals") (get response "totalEvals")) = true /\
      match js_or (get response "submissions") (VArr []) with
      | VArr items => present_all items = true
      | _ => False
      end)) /\
  (forall e : error, makeRequest x = Throw e -> submitEval x = Throw e).
Proof.
  split.
  - split.
    + intros [v H]. unfold submitEval in H.
      destruct x as [message | status statusText errorText | response |];
        cbn [makeRequest bind] in H; try discriminate.
      exists response. split; [reflexivity |].
      unfold member in H. destruct (nullish response); cbn [bind] in H; [discriminate |].
      split; [reflexivity |].
      cbv zeta in H. unfold printable. do 3 bind_ok H.
      split; [reflexivity | split; [reflexivity |]].
      destruct (js_or _ (VArr [])) as [| | | | | items |]; try discriminate.
      bind_ok H.
      apply (mapR_ok_iff normalizeSubmission (fun s => negb (nullish s))
               normalizeSubmission_ok_iff). eauto.
    + intros [response [-> [Hnull [Hgroup [Htotal Hsubs]]]]].
      unfold submitEval, member. cbn [makeRequest bind].
      rewrite Hnull. cbn [bind]. cbv zeta.
      apply printable_true in Hgroup as [group ->].
      apply printable_true in Htotal as [total ->]. cbn [bind].
      destruct (js_or _ (VArr [])) as [| | | | | items |]; try contradiction.
      cbn [lengthOf toStr bind].
      apply (mapR_ok_iff normalizeSubmission (fun s => negb (nullish s))
               normalizeSubmission_ok_iff) in Hsubs as [out Hout].
      rewrite Hout. cbn [bind]. eauto.
  - intros e H. unfold submitEval. rewrite H. reflexivity.
Qed.

Lemma submitEval_succeeds_iff_witness :
  submitEval (HttpError 401 "Unauthorized" "bad key")
  = Throw (RequestFailed 401 "Unauthorized" "bad key") /\
  (exists v : value, submitEval (HttpJson camelSubmitted) = Ok v) /\
  ~ (exists v : value,
       submitEval (HttpJson (VObj [ ("eval_group_id", unprintable);
                                    ("submissions", VArr []) ])) = Ok v).
Proof.
  split; [| split].
  - apply (proj2 (submitEval_succeeds_iff (HttpError 401 "Unauthorized" "bad key"))).
    reflexivity.
  - apply (proj1 (submitEval_succeeds_iff (HttpJson camelSubmitted))).
    exists camelSubmitted. repeat split.
  - intros H.
    apply (proj1 (submitEval_succeeds_iff
                    (HttpJson (VObj [ ("eval_group_id", unprintable);
                                      ("submissions", VArr []) ])))) in H
      as [response [E [_ [Hgroup _]]]].
    injection E as <-. discriminate Hgroup.
Defined.

(** A group id that cannot be converted ends [submitEval] after the
    request, at the line that logs it. *)
Example submitEval_unprintable_group :
  submitEval (HttpJson (VObj [ ("eval_group_id", unprintable); ("submissions", VArr []) ]))
  = Throw TypeError.
Proof. reflexivity. Qed.

(* ----------------------------------------------------------------- *)
(** ** What the poll loop throws and what it returns *)

Section PollLoopEndings.

Variable MAX_WAIT_MS : option Z.
Variable batchIds : list value.
Variable startTime : Z.

(** The loop throws at an iteration that starts after the maximum wait,
    and nowhere else. *)
Lemma pollLoop_thrown (world : list tick) :
  forall (calls : nat) (e : error) (n : nat),
    pollLoop MAX_WAIT_MS batchIds startTime world calls = (Thrown e, n) ->
    e = MaximumWaitExceeded /\
    exists (k : nat) (now : Z) (x : exchange),
      n = (calls + k)%nat /\
      nth_error world k = Some (now, x) /\
      exceeds (now - startTime) MAX_WAIT_MS = true.
Proof.
  induction world as [| [now x] world IH]; simpl; intros calls e n H.
  - discriminate.
  - destruct (exceeds (now - startTime) MAX_WAIT_MS) eqn:Enow.
    + injection H as <- <-. split; [reflexivity |].
      exists O, now, x. repeat split; [lia | exact Enow].
    + assert (Hrec : pollLoop MAX_WAIT_MS batchIds startTime world (S calls)
                     = (Thrown e, n)).
      { destruct (pollOnce batchIds x) as [[ours [|]] | e']; try discriminate; exact H. }
      apply IH in Hrec as [He [k [now' [x' [Hn [Hk Hex]]]]]].
      split; [exact He |].
      exists (S k), now', x'. repeat split; [lia | exact Hk | exact Hex].
Qed.

(** The filter, when it does not throw, keeps exactly the batches that
    carry one of our ids, and there was no [null] in the list. *)
Lemma filterR_kept (batches out : list value) :
  filterR (isOurs batchIds) batches = Ok out ->
  present_all batches = true /\
  out = filter (fun b => includes batchIds (batchIdOf b)) batches.
Proof.
  revert out; induction batches as [| b batches IH]; simpl; intros out H.
  - injection H as <-. split; reflexivity.
  - unfold isOurs at 1, member in H.
    destruct (nullish b); cbn [bind] in H; [discriminate |].
    bind_ok H. injection H as <-.
    destruct (IH _ eq_refl) as [Hpresent ->]. split; [exact Hpresent | reflexivity].
Qed.

(** The batches an iteration ends the loop with. *)
Lemma pollOnce_finished (x : exchange) (ours : list value) :
  pollOnce batchIds x = Ok (ours, true) ->
  exists (body : value) (batches : list value),
    x = HttpJson body /\
    js_or (get body "batches") (VArr []) = VArr batches /\
    present_all batches = true /\
    ours = filter (fun b => includes batchIds (batchIdOf b)) batches /\
    forallb finished ours = true.
Proof.
  unfold pollOnce, getEvalBatches. intros H.
  destruct x as [message | status statusText errorText | body |];
    cbn [makeRequest bind] in H; try discriminate.
  unfold member in H. destruct (nullish body); cbn [bind] in H; [discriminate |].
  destruct (js_or _ (VArr [])) as [| | | | | batches |] eqn:Ej; try discriminate.
  do 2 bind_ok H. injection H as <- Hall.
  match goal with Hf : filterR _ _ = Ok _ |- _ => apply filterR_kept in Hf as [Hp Hf] end.
  exists body, batches. repeat split; assumption.
Qed.

Lemma pollLoop_returned (world : list tick) :
  forall (calls : nat) (ours : list value) (n : nat),
    pollLoop MAX_WAIT_MS batchIds startTime world calls = (Returned ours, n) ->
    (calls < n <= calls + List.length world)%nat /\
    ours = filter (fun b => includes batchIds (batchIdOf b))
             (listedAt world (n - calls)) /\
    present_all (listedAt world (n - calls)) = true /\
    forallb finished ours = true.
Proof.
  induction world as [| [now x] world IH]; intros calls ours n H;
    cbn [pollLoop] in H; cbn [List.length].
  - discriminate.
  - destruct (exceeds (now - startTime) MAX_WAIT_MS); [discriminate |].
    destruct (pollOnce batchIds x) as [[ours' [|]] | e'] eqn:E.
    + injection H as <- <-.
      apply pollOnce_finished in E as [body [batches [-> [Hj [Hp [Hf Hall]]]]]].
      split; [lia |].
      replace (S calls - calls)%nat with 1%nat by lia.
      unfold listedAt. cbn [Nat.sub nth_error]. rewrite Hj. auto.
    + apply IH in H as [Hn Hrest]. split; [lia |].
      unfold listedAt in *.
      replace (n - calls - 1)%nat with (S (n - S calls - 1)) by lia.
      exact Hrest.
    + apply IH in H as [Hn Hrest]. split; [lia |].
      unfold listedAt in *.
      replace (n - calls - 1)%nat with (S (n - S calls - 1)) by lia.
      exact Hrest.
Qed.

End PollLoopEndings.

(** Reading the ids throws when a submission is [null], and gives the id of
    each submission otherwise. *)
Lemma mapR_member_cases (submissions : list value) (k : string) :
  match mapR (fun s => member s k) submissions with
  | Ok ids => ids = map (fun s => get s k) submissions /\ present_all submissions = true
  | Throw e => e = TypeError /\ present_all submissions = false
  end.
Proof.
  induction submissions as [| s submissions IH]; cbn [mapR map present_all forallb].
  - split; reflexivity.
  - unfold member at 1. destruct (nullish s); cbn [bind negb andb].
    + split; reflexivity.
    + fold (present_all submissions).
      destruct (mapR (fun s0 => member s0 k) submissions) as [ids | e]; cbn [bind].
      * destruct IH as [-> ->]. split; reflexivity.
      * exact IH.
Qed.

(** How [pollForCompletion] throws: before the loop, or in it. *)
Lemma pollForCompletion_thrown
    (MAX_WAIT_MS : option Z) (submissions : list value) (startTime : Z)
    (world : list tick) (e : error) (n : nat) :
  pollForCompletion MAX_WAIT_MS submissions startTime world = (Thrown e, n) ->
  (e = TypeError /\ n = O /\
   (present_all submissions = false \/
    forallb printable (map (fun s => get s "batch_execution_id") submissions) = false)) \/
  (e = MaximumWaitExceeded /\
   present_all submissions = true /\
   forallb printable (map (fun s => get s "batch_execution_id") submissions) = true /\
   exists (limit now : Z) (x : exchange),
     MAX_WAIT_MS = Some limit /\
     nth_error world n = Some (now, x) /\
     limit < now - startTime).
Proof.
  unfold pollForCompletion. intros H.
  pose proof (mapR_member_cases submissions "batch_execution_id") as Hids.
  destruct (mapR (fun s => member s "batch_execution_id") submissions) as [ids | e'].
  - destruct Hids as [-> Hpresent].
    pose proof (mapR_toStr_cases
                  (map (fun s => get s "batch_execution_id") submissions)) as Hkeys.
    destruct (mapR toStr _) as [keys | e'].
    + right. apply pollLoop_thrown in H as [He [k [now [x [Hn [Hk Hex]]]]]].
      split; [exact He | split; [exact Hpresent | split; [exact Hkeys |]]].
      simpl in Hn. subst k.
      destruct MAX_WAIT_MS as [limit |]; [| discriminate].
      exists limit, now, x. repeat split; [exact Hk |].
      simpl in Hex. lia.
    + left. destruct Hkeys as [-> Hkeys]. injection H as <- <-. auto.
  - left. destruct Hids as [-> Hpresent]. injection H as <- <-. auto.
Qed.

(** X4. For submissions that are objects with ids that can be used as
    property keys, [pollForCompletion] throws only the timeout, whatever the
    server does: when it throws after [n] requests, iteration [n] of the
    world (counted from 0) started after the maximum wait, and a maximum
    wait that is NaN never makes it throw. A request that fails, or a
    response that cannot be read, is never what ends the loop. Any other
    exception is a TypeError from before the first request: a submission is
    [null], or an id cannot be converted to a property key. *)
Theorem pollForCompletion_throws_timeout_only
    (MAX_WAIT_MS : option Z) (submissions : list value) (startTime : Z)
    (world : list tick) (e : error) (n : nat) :
  pollForCompletion MAX_WAIT_MS submissions startTime world = (Thrown e, n) ->
  (present_all submissions = true ->
   forallb printable (map (fun s => get s "batch_execution_id") submissions) = true ->
   e = MaximumWaitExceeded /\
   exists (limit now : Z) (x : exchange),
     MAX_WAIT_MS = Some limit /\
     nth_error world n = Some (now, x) /\
     limit < now - startTime) /\
  (e <> MaximumWaitExceeded ->
   e = TypeError /\ n = O /\
   (present_all submissions = false \/
    forallb printable (map (fun s => get s "batch_execution_id") submissions) = false)).
Proof.
  intros H.
  apply pollForCompletion_thrown in H
    as [[He [Hn Hwhy]] | [He [Hpresent [Hids Hlate]]]]; split.
  - intros Hpresent Hids. destruct Hwhy; congruence.
  - auto.
  - auto.
  - intros Hne. contradiction.
Qed.

Lemma pollForCompletion_throws_timeout_only_witness :
  (MaximumWaitExceeded = MaximumWaitExceeded /\
   exists (limit now : Z) (x : exchange),
     Some 1800000 = Some limit /\
     nth_error [ (0, listing [ listed "b1" "running" ]);
                 (1800001, listing [ listed "b1" "completed" ]) ] 1
       = Some (now, x) /\
     limit < now - 0) /\
  (TypeError = TypeError /\ O = O /\
   (present_all [ VObj [ ("batch_execution_id", unprintable) ] ] = false \/
    forallb printable
      (map (fun s => get s "batch_execution_id")
         [ VObj [ ("batch_execution_id", unprintable) ] ]) = false)).
Proof.
  split.
  - apply (proj1 (pollForCompletion_throws_timeout_only (Some 1800000) [ submitted "b1" ] 0
                    [ (0, listing [ listed "b1" "running" ]);
                      (1800001, listing [ listed "b1" "completed" ]) ]
                    MaximumWaitExceeded 1 eq_refl)); reflexivity.
  - apply (proj2 (pollForCompletion_throws_timeout_only (Some 1800000)
                    [ VObj [ ("batch_execution_id", unprintable) ] ] 0
                    [ (0, listing [ listed "b1" "running" ]) ]
                    TypeError 0 eq_refl)).
    discriminate.
Defined.

(** X5. The loop throws the timeout at the first iteration that starts
    after the maximum wait, without a request in that iteration: the
    number of requests is the number of iterations before it. An iteration
    that starts exactly at the maximum wait is not late. *)
Theorem pollLoop_times_out
    (MAX_WAIT_MS : option Z) (batchIds : list value) (startTime : Z)
    (before : list tick) (now : Z) (x : exchange) (later : list tick) :
  forallb (retried MAX_WAIT_MS batchIds startTime) before = true ->
  exceeds (now - startTime) MAX_WAIT_MS = true ->
  pollLoop MAX_WAIT_MS batchIds startTime (before ++ (now, x) :: later) 0
    = (Thrown MaximumWaitExceeded, List.length before) /\
  (forall limit : Z,
     exceeds limit (Some limit) = false /\ exceeds (limit + 1) (Some limit) = true).
Proof.
  intros Hbefore Hnow. split.
  - rewrite (pollLoop_retried _ _ _ _ _ Hbefore).
    now apply pollLoop_deadline.
  - intros limit. unfold exceeds. split; [apply Z.ltb_ge | apply Z.ltb_lt]; lia.
Qed.

Lemma pollLoop_times_out_witness :
  pollLoop (Some 10000) [ VStr "b1" ] 0
    ([ (0, listing [ listed "b1" "running" ]); (5000, NoResponse "network");
       (10000, listing [ listed "b1" "running" ]) ]
     ++ (15000, listing [ listed "b1" "completed" ]) :: []) 0
  = (Thrown MaximumWaitExceeded, 3%nat).
Proof.
  apply (proj1 (pollLoop_times_out (Some 10000) [ VStr "b1" ] 0
                  [ (0, listing [ listed "b1" "running" ]); (5000, NoResponse "network");
                    (10000, listing [ listed "b1" "running" ]) ]
                  15000 (listing [ listed "b1" "completed" ]) []
                  eq_refl eq_refl)).
Defined.

(** What [pollForCompletion] returns, and after how many requests. *)
Lemma pollForCompletion_returned
    (MAX_WAIT_MS : option Z) (submissions : list value) (startTime : Z)
    (world : list tick) (ours : list value) (n : nat) :
  pollForCompletion MAX_WAIT_MS submissions startTime world = (Returned ours, n) ->
  (1 <= n <= List.length world)%nat /\
  exists batchIds : list value,
    mapR (fun s => member s "batch_execution_id") submissions = Ok batchIds /\
    ours = filter (fun b => includes batchIds (batchIdOf b)) (listedAt world n) /\
    present_all (listedAt world n) = true /\
    forallb finished ours = true.
Proof.
  unfold pollForCompletion. intros H.
  destruct (mapR _ submissions) as [batchIds | e]; [| discriminate].
  destruct (mapR toStr batchIds) as [keys | e]; [| discriminate].
  apply pollLoop_returned in H as [Hn Hrest]. rewrite Nat.sub_0_r in Hrest.
  split; [lia |]. exists batchIds. split; [reflexivity | exact Hrest].
Qed.

(** X6. Whatever [pollForCompletion] returns, it made at least one request
    and at most one per iteration of the world, and what it returns are the
    batches listed by the response to its last request that carry a
    submitted id, in the order of that response: every one of them is an
    object of that response, carries a submitted id and has the status
    completed or failed. *)
Theorem pollForCompletion_returns_ours_finished
    (MAX_WAIT_MS : option Z) (submissions : list value) (startTime : Z)
    (world : list tick) (ours : list value) (n : nat) :
  pollForCompletion MAX_WAIT_MS submissions startTime world = (Returned ours, n) ->
  (1 <= n <= List.length world)%nat /\
  exists batchIds : list value,
    mapR (fun s => member s "batch_execution_id") submissions = Ok batchIds /\
    ours = filter (fun b => includes batchIds (batchIdOf b)) (listedAt world n) /\
    Forall (fun b => In b (listedAt world n) /\
                     nullish b = false /\
                     includes batchIds (batchIdOf b) = true /\
                     finished b = true) ours.
Proof.
  intros H.
  apply pollForCompletion_returned in H as [Hn [batchIds [Hids [Hours [Hpresent Hall]]]]].
  split; [exact Hn |]. exists batchIds. split; [exact Hids | split; [exact Hours |]].
  apply Forall_forall. intros b Hb.
  rewrite forallb_forall in Hall. specialize (Hall b Hb).
  rewrite Hours in Hb. apply filter_In in Hb as [Hin Hinc].
  unfold present_all in Hpresent. rewrite forallb_forall in Hpresent.
  pose proof (Hpresent b Hin) as Hnull. apply negb_true_iff in Hnull.
  repeat split; assumption.
Qed.

Lemma pollForCompletion_returns_ours_finished_witness :
  (1 <= 2 <= 2)%nat /\
  exists batchIds : list value,
    mapR (fun s => member s "batch_execution_id") [ submitted "b1" ] = Ok batchIds /\
    [ listed "b1" "failed" ]
    = filter (fun b => includes batchIds (batchIdOf b))
        (listedAt [ (0, HttpError 503 "Service Unavailable" "");
                    (5000, listing [ listed "b0" "running"; listed "b1" "failed" ]) ] 2) /\
    Forall (fun b => In b (listedAt [ (0, HttpError 503 "Service Unavailable" "");
                                      (5000, listing [ listed "b0" "running";
                                                       listed "b1" "failed" ]) ] 2) /\
                     nullish b = false /\
                     includes batchIds (batchIdOf b) = true /\
                     finished b = true) [ listed "b1" "failed" ].
Proof.
  apply (pollForCompletion_returns_ours_finished (Some 1800000) [ submitted "b1" ] 0
           [ (0, HttpError 503 "Service Unavailable" "");
             (5000, listing [ listed "b0" "running"; listed "b1" "failed" ]) ]
           [ listed "b1" "failed" ] 2).
  reflexivity.
Defined.

(** X7. However many status requests fail in a row (no response, an HTTP
    error, a body that is not JSON), the loop goes on polling as long as
    the iterations start within the maximum wait: one request per
    iteration, no exception and no result. There is no cap on the number
    of retries. *)
Theorem pollLoop_retries_failures
    (MAX_WAIT_MS : option Z) (batchIds : list value) (startTime : Z)
    (world : list tick) :
  forallb (fun t => negb (exceeds (fst t - startTime) MAX_WAIT_MS) && failed (snd t))
    world = true ->
  pollLoop MAX_WAIT_MS batchIds startTime world 0 = (Waiting, List.length world).
Proof.
  intros H.
  rewrite <- (app_nil_r world) at 1.
  rewrite pollLoop_retried; [reflexivity |].
  revert H. apply forallb_impl. intros [now x]. unfold retried, failed. simpl.
  rewrite !andb_true_iff. intros [Hnow Hx]. split; [exact Hnow |].
  destruct (makeRequest x) as [v | e] eqn:E; [discriminate |].
  now apply unfinished_failure with (e := e).
Qed.

Lemma pollLoop_retries_failures_witness :
  pollLoop (Some 1800000) [ VStr "b1" ] 0
    [ (0, NoResponse "network"); (5000, HttpError 500 "Internal Server Error" "oops");
      (10000, HttpNotJson) ] 0
  = (Waiting, 3%nat).
Proof.
  apply (pollLoop_retries_failures (Some 1800000) [ VStr "b1" ] 0
           [ (0, NoResponse "network"); (5000, HttpError 500 "Internal Server Error" "oops");
             (10000, HttpNotJson) ]).
  reflexivity.
Defined.



(** An id that cannot be converted passes through [submitEval] and stops
    the poll before its first request. *)
Example submitEval_passes_unprintable_id (world : list tick) :
  submitEval (HttpJson (VObj [ ("submissions",
                                VArr [ VObj [ ("batch_execution_id", unprintable) ] ]) ]))
  = Ok (VObj [ ("eval_group_id", VUndefined);
               ("total_evals", VUndefined);
               ("submissions",
                VArr [ VObj [ ("eval_name", VUndefined);
                              ("batch_execution_id", unprintable);
                              ("status", VUndefined);
                              ("queue_name", VUndefined) ] ]) ]) /\
  pollForCompletion (Some 1800000)
    [ VObj [ ("eval_name", VUndefined);
             ("batch_execution_id", unprintable);
             ("status", VUndefined);
             ("queue_name", VUndefined) ] ] 0 world
  = (Thrown TypeError, 0%nat).
Proof. split; reflexivity. Qed.

(* ----------------------------------------------------------------- *)
(** ** The rows of the summary table *)

(** The row of a batch: written when the batch is there and everything it
    prints can be converted, a TypeError otherwise. *)
Lemma summaryRow_cases (batch : value)
    (detailedResultsMap : option (list (string * ResultSet))) :
  match summaryRow batch detailedResultsMap with
  | Ok _ => rowConverts detailedResultsMap batch = true
  | Throw e => e = TypeError /\ rowConverts detailedResultsMap batch = false
  end.
Proof.
  unfold summaryRow, rowConverts, rowPrints, member, batchTotalCost, printable.
  destruct (nullish batch); cbn [bind negb andb]; [split; reflexivity |].
  assert (Hcells :
            forall cost : float,
              match
                (name <- toStr (rowEvalName batch) ;;
                 total <- toStr (rowTotalRecords batch) ;;
                 processed <- toStr (rowProcessedRecords batch) ;;
                 failed <- toStr (rowFailedRecords batch) ;;
                 state <- toStr (get batch "status") ;;
                 Ok ("| " ++ name ++ " | " ++ total ++ " | " ++ processed ++ " | " ++
                     failed ++ " | " ++ state ++ " | " ++ costCell cost ++ " |"))
              with
              | Ok _ =>
                  match toStr (rowEvalName batch) with Ok _ => true | Throw _ => false end &&
                  match toStr (rowTotalRecords batch) with Ok _ => true | Throw _ => false end &&
                  match toStr (rowProcessedRecords batch) with
                  | Ok _ => true | Throw _ => false end &&
                  match toStr (rowFailedRecords batch) with Ok _ => true | Throw _ => false end &&
                  match toStr (get batch "status") with Ok _ => true | Throw _ => false end
                  = true
              | Throw e =>
                  e = TypeError /\
                  match toStr (rowEvalName batch) with Ok _ => true | Throw _ => false end &&
                  match toStr (rowTotalRecords batch) with Ok _ => true | Throw _ => false end &&
                  match toStr (rowProcessedRecords batch) with
                  | Ok _ => true | Throw _ => false end &&
                  match toStr (rowFailedRecords batch) with Ok _ => true | Throw _ => false end &&
                  match toStr (get batch "status") with Ok _ => true | Throw _ => false end
                  = false
              end).
  { intros cost.
    destruct (toStr (rowEvalName batch)) eqn:E1; cbn [bind andb];
      [| split; [exact (toStr_TypeError _ _ E1) | reflexivity]].
    destruct (toStr (rowTotalRecords batch)) eqn:E2; cbn [bind andb];
      [| split; [exact (toStr_TypeError _ _ E2) | reflexivity]].
    destruct (toStr (rowProcessedRecords batch)) eqn:E3; cbn [bind andb];
      [| split; [exact (toStr_TypeError _ _ E3) | reflexivity]].
    destruct (toStr (rowFailedRecords batch)) eqn:E4; cbn [bind andb];
      [| split; [exact (toStr_TypeError _ _ E4) | reflexivity]].
    destruct (toStr (get batch "status")) eqn:E5; cbn [bind andb];
      [| split; [exact (toStr_TypeError _ _ E5) | reflexivity]].
    reflexivity. }
  destruct detailedResultsMap as [m |]; cbn [bind].
  - destruct (toStr (js_or (get batch "batch_execution_id")
                           (get batch "batchExecutionId"))) as [key | e] eqn:E0;
      cbn [bind andb]; [| split; [exact (toStr_TypeError _ _ E0) | reflexivity]].
    destruct (lookup key m) as [results |]; cbn [bind]; apply Hcells.
  - apply Hcells.
Qed.

Lemma mapR_summaryRow_cases (batches : list value)
    (detailedResultsMap : option (list (string * ResultSet))) :
  match mapR (fun batch => summaryRow batch detailedResultsMap) batches with
  | Ok rows =>
      forallb (rowConverts detailedResultsMap) batches = true /\
      Forall2 (fun batch row => summaryRow batch detailedResultsMap = Ok row) batches rows
  | Throw e =>
      e = TypeError /\ forallb (rowConverts detailedResultsMap) batches = false
  end.
Proof.
  induction batches as [| b batches IH]; cbn [mapR forallb].
  - split; [reflexivity | constructor].
  - pose proof (summaryRow_cases b detailedResultsMap) as Hb.
    destruct (summaryRow b detailedResultsMap) as [row | e] eqn:Erow; cbn [bind].
    + rewrite Hb. cbn [andb].
      destruct (mapR _ batches) as [rows | e]; cbn [bind].
      * destruct IH as [Hall Hrows]. split; [exact Hall | now constructor].
      * exact IH.
    + destruct Hb as [-> ->]. split; reflexivity.
Qed.

(** X9. [generateSummaryTable] gives the four lines of the header, one row
    per batch, in the order of the batches, and a last empty line; a list
    without batches gives the header alone. It throws a TypeError exactly
    when the row of one of the batches cannot be written: the batch is
    [null] or [undefined], its id cannot be used as a key of the table of
    results, or one of its five cells cannot be converted to text. *)
Theorem generateSummaryTable_rows (batches : list value)
    (detailedResultsMap : option (list (string * ResultSet))) :
  (forallb (rowConverts detailedResultsMap) batches = true ->
     exists rows : list string,
       generateSummaryTable batches detailedResultsMap
         = Ok (Str.join nl (summaryHeader ++ rows ++ [ "" ])) /\
       Forall2 (fun batch row => summaryRow batch detailedResultsMap = Ok row)
         batches rows) /\
  (forallb (rowConverts detailedResultsMap) batches = false ->
     generateSummaryTable batches detailedResultsMap = Throw TypeError).
Proof.
  unfold generateSummaryTable.
  pose proof (mapR_summaryRow_cases batches detailedResultsMap) as H.
  destruct (mapR _ batches) as [rows | e]; cbn [bind].
  - destruct H as [Hall Hrows]. split; intros Hconv; [| congruence].
    exists rows. split; [reflexivity | exact Hrows].
  - destruct H as [-> Hall]. split; intros Hconv; [congruence | reflexivity].
Qed.

Lemma generateSummaryTable_rows_witness :
  (exists rows : list string,
     generateSummaryTable [ sampleBatch ] (Some [ ("b1", halfResults) ])
       = Ok (Str.join nl (summaryHeader ++ rows ++ [ "" ])) /\
     Forall2 (fun batch row => summaryRow batch (Some [ ("b1", halfResults) ]) = Ok row)
       [ sampleBatch ] rows) /\
  generateSummaryTable [ sampleBatch; VNull ] None = Throw TypeError /\
  generateSummaryTable [ VObj [ ("eval_name", unprintable) ] ] None = Throw TypeError.
Proof.
  split; [| split].
  - apply (proj1 (generateSummaryTable_rows [ sampleBatch ] (Some [ ("b1", halfResults) ]))).
    reflexivity.
  - apply (proj2 (generateSummaryTable_rows [ sampleBatch; VNull ] None)). reflexivity.
  - apply (proj2 (generateSummaryTable_rows [ VObj [ ("eval_name", unprintable) ] ] None)).
    reflexivity.
Defined.








(* ----------------------------------------------------------------- *)
(** ** Detail tables without a step *)

(** Records without a step give no line. *)
Lemma recordLines_nil (records : list (string * list StepResult)) :
  Forall (fun rec => snd rec = []) records ->
  exists blocks : list (list string),
    mapR Markdown.recordLines records = Ok blocks /\ List.concat blocks = [].
Proof.
  induction 1 as [| rec records Hrec _ [blocks [Hblocks Hnil]]]; cbn [mapR].
  - exists []. split; reflexivity.
  - unfold Markdown.recordLines at 1. rewrite Hrec, Hblocks. cbn [bind].
    exists ([] :: blocks). split; [reflexivity | exact Hnil].
Qed.

Lemma logRecords_nil (records : list (string * list StepResult)) :
  Forall (fun rec => snd rec = []) records ->
  Console.logRecords records = ([], None).
Proof.
  induction 1 as [| rec records Hrec _ IH]; cbn [Console.logRecords].
  - reflexivity.
  - unfold Console.recordLogs. rewrite Hrec, IH. reflexivity.
Qed.

(** X11. Take a ResultSet whose name can be converted to text. When
    [results_by_record] is absent or empty, the markdown is the heading, an
    empty line and the notice that no results were found. When it has
    records but none of them has a step, the markdown is the heading and an
    empty line, without that notice and without a table, and the console
    shows the same. When the name cannot be converted, both renderers throw
    before a line is written or printed. *)
Theorem detailed_results_without_steps (results : ResultSet) :
  match toStr (resultsName results) with
  | Ok name =>
      (results_by_record results = None \/ results_by_record results = Some [] ->
       Markdown.generateDetailedResultsMarkdown results
       = Ok ("## Detailed Results: " ++ name ++ nl ++ nl ++ "No results found." ++ nl)) /\
      (forall byRecord : list (string * list StepResult),
         results_by_record results = Some byRecord ->
         byRecord <> [] ->
         Forall (fun rec => snd rec = []) byRecord ->
         Markdown.generateDetailedResultsMarkdown results
         = Ok ("## Detailed Results: " ++ name ++ nl) /\
         Console.displayDetailedResults results
         = ([ "## Detailed Results: " ++ name ++ nl ], None))
  | Throw e =>
      Markdown.generateDetailedResultsMarkdown results = Throw e /\
      Console.displayDetailedResults results = ([], Some e)
  end.
Proof.
  unfold Markdown.generateDetailedResultsMarkdown, Console.displayDetailedResults.
  fold (resultsName results).
  destruct (toStr (resultsName results)) as [name | e]; cbn [bind];
    [| split; reflexivity].
  cbv zeta. split.
  - intros [H | H]; rewrite H; cbn; rewrite ?append_assoc; reflexivity.
  - intros byRecord H Hne Hall. rewrite H.
    assert (Hsteps : Forall (fun rec => snd rec = []) (own_order byRecord)).
    { apply Forall_forall. intros rec Hrec. apply own_order_In in Hrec.
      rewrite Forall_forall in Hall. now apply Hall. }
    remember (own_order byRecord) as records eqn:E.
    destruct records as [| rec records];
      [symmetry in E; now apply own_order_not_nil in E |].
    destruct (recordLines_nil _ Hsteps) as [blocks [Hblocks Hnil]].
    rewrite Hblocks, (logRecords_nil _ Hsteps). cbn [bind]. rewrite Hnil.
    split; [| reflexivity]. cbn. rewrite ?append_assoc. reflexivity.
Qed.

Lemma detailed_results_without_steps_witness :
  Markdown.generateDetailedResultsMarkdown (mkResults [] None)
    = Ok ("## Detailed Results: Unknown" ++ nl ++ nl ++ "No results found." ++ nl) /\
  Markdown.generateDetailedResultsMarkdown
    (mkResults [ ("evalName", VStr "e1") ] (Some [ ("r1", []); ("7", []) ]))
    = Ok ("## Detailed Results: e1" ++ nl) /\
  Console.displayDetailedResults (mkResults [ ("eval_name", unprintable) ] None)
    = ([], Some TypeError).
Proof.
  split; [| split].
  - apply (proj1 (detailed_results_without_steps (mkResults [] None))).
    left. reflexivity.
  - apply (proj2 (detailed_results_without_steps
                    (mkResults [ ("evalName", VStr "e1") ] (Some [ ("r1", []); ("7", []) ])))
             [ ("r1", []); ("7", []) ]).
    + reflexivity.
    + discriminate.
    + repeat constructor.
  - apply (proj2 (detailed_results_without_steps
                    (mkResults [ ("eval_name", unprintable) ] None))).
Defined.

(* ----------------------------------------------------------------- *)
(** ** The loop that fetches the results *)

(** What storing the results of a batch changes. *)
Lemma store_fields (id : string) (results : ResultSet) (acc : Fetched)
    (sent : list request) :
  detailedResults (store id results acc sent) = (detailedResults acc ++ [ results ])%list /\
  resultsRequests (store id results acc sent) = sent /\
  (isProto id = false ->
   tablePrototype (store id results acc sent) = tablePrototype acc).
Proof.
  unfold store. destruct (isProto id); cbn [andb].
  - destruct (negb _); repeat split; intros H; discriminate H.
  - repeat split.
Qed.

Section FetchResults.

Variable env : Environment.

(** Every request of the loop asks for the results of a batch. *)
Lemma fetchResults_requests (batches : list value) :
  forall (answers : list resultsAnswer) (acc : Fetched),
  exists more : list request,
    resultsRequests (snd (fetchResults env batches answers acc))
      = (resultsRequests acc ++ more)%list /\
    Forall (fun q => exists id : string, q = resultsRequest env id) more.
Proof.
  induction batches as [| batch batches IH]; intros answers acc; cbn [fetchResults].
  - exists []. split; [now rewrite app_nil_r | constructor].
  - destruct (nullish batch).
    { exists []. split; [now rewrite app_nil_r | constructor]. }
    destruct (truthy (batchIdOf batch)); cbn [negb]; [| apply IH].
    destruct (toStr (batchIdOf batch)) as [id | e].
    2:{ exists []. split; [now rewrite app_nil_r | constructor]. }
    destruct answers as [| [e | results] later]; cbn [snd resultsRequests].
    + eexists. split; [reflexivity |]. repeat constructor. eauto.
    + destruct (IH later (mkFetched (detailedResults acc) (detailedResultsMap acc)
                            (tablePrototype acc)
                            (resultsRequests acc ++ [ resultsRequest env id ])%list))
        as [more [Hmore Hall]].
      exists (resultsRequest env id :: more).
      rewrite Hmore. cbn [resultsRequests]. rewrite <- app_assoc. split; [reflexivity |].
      constructor; eauto.
    + destruct (IH later (store id results acc
                            (resultsRequests acc ++ [ resultsRequest env id ])%list))
        as [more [Hmore Hall]].
      exists (resultsRequest env id :: more).
      rewrite Hmore.
      rewrite (proj1 (proj2 (store_fields id results acc _))).
      rewrite <- app_assoc. split; [reflexivity |].
      constructor; eauto.
Qed.


End FetchResults.


(* ----------------------------------------------------------------- *)
(** ** The run *)

Lemma printable_js_or (a b : value) :
  printable b = true -> printable (js_or a b) = printable a.
Proof.
  intros Hb. unfold js_or. destruct (truthy a) eqn:E; [reflexivity |].
  rewrite Hb. destruct a; try reflexivity; discriminate E.
Qed.

(** The banner is printed when the config allows it, and throws a
    TypeError otherwise. *)
Lemma banner_cases (evalConfig : value) :
  match banner evalConfig with
  | Ok _ => bannerPrints evalConfig = true
  | Throw e => e = TypeError /\ bannerPrints evalConfig = false
  end.
Proof.
  unfold banner, bannerPrints, member.
  destruct (nullish evalConfig); cbn [bind negb andb]; [split; reflexivity |].
  assert (Hname : printable (js_or (optional (get evalConfig "flow_definition") "name")
                               (VStr "N/A"))
                  = printable (get (get evalConfig "flow_definition") "name")).
  { rewrite printable_js_or by reflexivity. unfold optional.
    destruct (get evalConfig "flow_definition"); reflexivity. }
  assert (Hlength : forall v : value,
             printable (js_or (if nullish v then VUndefined else lengthOf v) (VNum 0))
             = printable (get v "length")).
  { intros v. rewrite printable_js_or by reflexivity.
    destruct v; reflexivity. }
  rewrite <- Hname, <- !Hlength. unfold printable.
  destruct (toStr (js_or (optional _ "name") _)) as [flow | e] eqn:E1; cbn [bind andb];
    [| split; [exact (toStr_TypeError _ _ E1) | reflexivity]].
  cbv zeta.
  destruct (toStr (js_or (if nullish (get evalConfig "records") then _ else _) _))
    as [recordCount | e] eqn:E2; cbn [bind andb];
    [| split; [exact (toStr_TypeError _ _ E2) | reflexivity]].
  destruct (toStr (js_or (if nullish (get evalConfig "eval_configs") then _ else _) _))
    as [configCount | e] eqn:E3; cbn [bind andb];
    [| split; [exact (toStr_TypeError _ _ E3) | reflexivity]].
  reflexivity.
Qed.

(** X12. A run sends no request at all exactly when the credential is
    missing, the config file cannot be read or parsed, or the banner cannot
    be printed: the config is [null], or the name of the flow, or a [length]
    written into [records] or [eval_configs], cannot be converted to text.
    Such a run writes no file, and it exits with code 1, or, for the banner,
    dies of a TypeError, which no handler catches. The credential is
    missing exactly when both [TRAVRSE_API_KEY] and [TV_API_KEY] are unset
    or empty. *)
Theorem main_sends_nothing_iff (w : World) :
  (noKey (API_KEY (environment w)) = true <->
   noKey (env_TRAVRSE_API_KEY (environment w)) = true /\
   noKey (env_TV_API_KEY (environment w)) = true) /\
  (requests (main w) = [] <->
   noKey (API_KEY (environment w)) = true \/
   (exists e : error, configFile w = Throw e) \/
   (exists evalConfig : value,
      configFile w = Ok evalConfig /\ bannerPrints evalConfig = false)) /\
  (requests (main w) = [] ->
   written (main w) = None /\
   (ended (main w) = Exited 1 \/ ended (main w) = Uncaught TypeError)).
Proof.
  split.
  { unfold API_KEY, envOr, noKey.
    destruct (env_TRAVRSE_API_KEY (environment w)) as [k |];
      [destruct (String.eqb k "") eqn:E; [| rewrite E] |];
      destruct (env_TV_API_KEY (environment w)); intuition discriminate. }
  unfold main.
  destruct (noKey (API_KEY (environment w))).
  { cbn. split; [split |]; auto. }
  destruct (configFile w) as [evalConfig | e].
  2:{ cbn. split; [split |]; eauto. }
  pose proof (banner_cases evalConfig) as Hbanner.
  destruct (banner evalConfig) as [lines | e].
  2:{ destruct Hbanner as [-> Hbanner]. cbn. split; [split |]; eauto. }
  assert (Hsent : forall (A : Prop) (r : Run),
             (exists (first : request) (rest : list request), requests r = first :: rest) ->
             (requests r = [] <->
              false = true \/
              (exists e : error, Ok evalConfig = @Throw value e) \/
              (exists c : value, Ok evalConfig = Ok c /\ bannerPrints c = false)) /\
             (requests r = [] -> A)).
  { intros A r [first [rest Hr]]. rewrite Hr. split; [split |]; try discriminate.
    intros [H | [[e H] | [c [H Hc]]]]; try discriminate.
    injection H as <-. congruence. }
  apply Hsent. split_run; cbn [requests stop]; eauto.
Qed.

Lemma main_sends_nothing_iff_witness :
  written (main (mkWorld localEnv None
                   (Ok (VObj [ ("flow_definition", VObj [ ("name", unprintable) ]) ]))
                   (listing []) 0 [] [] true)) = None /\
  (ended (main (mkWorld localEnv None
                  (Ok (VObj [ ("flow_definition", VObj [ ("name", unprintable) ]) ]))
                  (listing []) 0 [] [] true)) = Exited 1 \/
   ended (main (mkWorld localEnv None
                  (Ok (VObj [ ("flow_definition", VObj [ ("name", unprintable) ]) ]))
                  (listing []) 0 [] [] true)) = Uncaught TypeError).
Proof.
  apply (proj2 (proj2 (main_sends_nothing_iff
                         (mkWorld localEnv None
                            (Ok (VObj [ ("flow_definition",
                                         VObj [ ("name", unprintable) ]) ]))
                            (listing []) 0 [] [] true)))).
  reflexivity.
Defined.

(** A config whose flow has a name that cannot be converted: the run dies
    at the banner, before the POST. *)
Example main_unprintable_flow_name :
  main (mkWorld localEnv None
          (Ok (VObj [ ("flow_definition", VObj [ ("name", unprintable) ]) ]))
          (listing []) 0 [] [] true)
  = mkRun (Uncaught TypeError) [] None.
Proof. reflexivity. Qed.

Lemma Forall_repeat {A : Type} (P : A -> Prop) (a : A) (n : nat) :
  P a -> Forall P (repeat a n).
Proof.
  intros H. induction n; simpl; constructor; auto.
Qed.

(** The requests of a run: the POST, then GETs. *)
Lemma main_request_shape (w : World) (first : request) (rest : list request) :
  requests (main w) = first :: rest ->
  (exists evalConfig : value,
     configFile w = Ok evalConfig /\
     first = submitRequest (environment w) evalConfig /\
     req_body first = stringify evalConfig) /\
  Forall (fun q =>
            q = batchesRequest (environment w) \/
            exists id : string, q = resultsRequest (environment w) id) rest.
Proof.
  unfold main.
  destruct (noKey _); [discriminate |].
  destruct (configFile w) as [evalConfig | e]; [| discriminate].
  destruct (banner evalConfig) as [lines | e]; [| discriminate].
  assert (Hpolls : forall n : nat,
            Forall (fun q =>
                      q = batchesRequest (environment w) \/
                      exists id : string, q = resultsRequest (environment w) id)
              (repeat (batchesRequest (environment w)) n)).
  { intros n. apply Forall_repeat. now left. }
  destruct (submitEval (submitAnswer w)) as [submitResponse | e].
  2:{ simpl. intros H. injection H as <- <-. split; [eauto | constructor]. }
  destruct (get submitResponse "submissions") as [| | | | | submissions |];
    try (simpl; intros H; injection H as <- <-; split; [eauto | constructor]).
  set (polled := pollForCompletion _ _ _ _).
  destruct (fst polled) as [completedBatches | e |];
    try (simpl; intros H; injection H as <- <-; split; [eauto | apply Hpolls]).
  set (fetching := fetchResults _ _ _ _).
  assert (Hsent : forall (t : termination) (file : option (string * string)),
             requests
               (mkRun t
                  (submitRequest (environment w) evalConfig
                   :: repeat (batchesRequest (environment w)) (snd polled)
                      ++ resultsRequests (snd fetching))%list file)
             = first :: rest ->
             (exists c : value,
                Ok evalConfig = Ok c /\
                first = submitRequest (environment w) c /\
                req_body first = stringify c) /\
             Forall (fun q =>
                       q = batchesRequest (environment w) \/
                       exists id : string, q = resultsRequest (environment w) id) rest).
  { intros t file. cbn [requests]. intros H. injection H as <- <-. split; [eauto |].
    apply Forall_app. split; [apply Hpolls |].
    destruct (fetchResults_requests (environment w) completedBatches (resultsAnswers w)
                (mkFetched [] [] None [])) as [more [Hmore Hall]].
    fold fetching in Hmore. rewrite Hmore. cbn [resultsRequests app].
    revert Hall. apply Forall_impl. intros q Hq. now right. }
  unfold stop.
  destruct (fst fetching); try apply Hsent.
  destruct (tablePrototype (snd fetching)); [apply Hsent |].
  destruct (generateSummaryTable _ _); [| apply Hsent].
  destruct (mapR Markdown.generateDetailedResultsMarkdown _); [| apply Hsent].
  destruct (snd (displayAll _)); apply Hsent.
Qed.

(** X13. In every run the first request is the POST of the config, as it
    was parsed, to [/eval/submit]; it is sent once. Every later request is
    a GET without a body: of the list of batches, or of the results of one
    batch. All of them go to the base URL, under [/v1/eval/]. *)
Theorem main_request_order (w : World) (first : request) (rest : list request) :
  requests (main w) = first :: rest ->
  (exists evalConfig : value,
     configFile w = Ok evalConfig /\
     first = submitRequest (environment w) evalConfig /\
     req_method first = "POST" /\
     req_body first = stringify evalConfig) /\
  Forall (fun q =>
            req_method q = "GET" /\ req_body q = None /\
            (q = batchesRequest (environment w) \/
             exists id : string, q = resultsRequest (environment w) id)) rest /\
  Forall (fun q =>
            exists path : string,
              req_url q
              = API_BASE_URL (env_TRAVRSE_API_URL (environment w)) ++ "/v1/eval/" ++ path)
    (first :: rest).
Proof.
  intros H. apply main_request_shape in H as [[evalConfig [Hconfig [Hfirst Hbody]]] Hrest].
  split; [| split].
  - exists evalConfig. subst first. repeat split; assumption.
  - revert Hrest. apply Forall_impl.
    intros q [-> | [id ->]]; repeat split; eauto.
  - constructor.
    + subst first. exists "submit". reflexivity.
    + revert Hrest. apply Forall_impl. intros q [-> | [id ->]].
      * exists "batches". reflexivity.
      * exists (id ++ "/results"). reflexivity.
Qed.

Lemma main_request_order_witness :
  (exists evalConfig : value,
     configFile sampleWorld = Ok evalConfig /\
     submitRequest localEnv
       (VObj [ ("flow_definition", VObj [ ("name", VStr "car-finder") ]) ])
     = submitRequest (environment sampleWorld) evalConfig /\
     req_method (submitRequest localEnv
                   (VObj [ ("flow_definition", VObj [ ("name", VStr "car-finder") ]) ]))
     = "POST" /\
     req_body (submitRequest localEnv
                 (VObj [ ("flow_definition", VObj [ ("name", VStr "car-finder") ]) ]))
     = stringify evalConfig) /\
  Forall (fun q =>
            req_method q = "GET" /\ req_body q = None /\
            (q = batchesRequest (environment sampleWorld) \/
             exists id : string, q = resultsRequest (environment sampleWorld) id))
    [ batchesRequest localEnv; batchesRequest localEnv;
      resultsRequest localEnv "b1" ] /\
  Forall (fun q =>
            exists path : string,
              req_url q
              = API_BASE_URL (env_TRAVRSE_API_URL (environment sampleWorld))
                ++ "/v1/eval/" ++ path)
    [ submitRequest localEnv
        (VObj [ ("flow_definition", VObj [ ("name", VStr "car-finder") ]) ]);
      batchesRequest localEnv; batchesRequest localEnv;
      resultsRequest localEnv "b1" ].
Proof.
  apply (main_request_order sampleWorld). vm_compute. reflexivity.
Defined.

(** The requests of the sample run. *)
Example main_sample_requests :
  requests (main sampleWorld)
  = [ mkRequest "POST" "http://localhost:8787/v1/eval/submit"
        (Some ("{" ++ dquote ++ "flow_definition" ++ dquote ++ ":{" ++ dquote ++ "name"
               ++ dquote ++ ":" ++ dquote ++ "car-finder" ++ dquote ++ "}}"));
      mkRequest "GET" "http://localhost:8787/v1/eval/batches" None;
      mkRequest "GET" "http://localhost:8787/v1/eval/batches" None;
      mkRequest "GET" "http://localhost:8787/v1/eval/b1/results" None ].
Proof. vm_compute. reflexivity. Qed.

(** X14. A run writes the report file exactly when it exits with code 0 and
    the write succeeds: a run that ends with code 1, dies or is still
    waiting has written nothing, not even a part. *)
Theorem main_writes_iff (w : World) :
  (exists file : string * string, written (main w) = Some file) <->
  ended (main w) = Exited 0 /\ writeSucceeds w = true.
Proof.
  unfold main. split_run;
    try match goal with
        | Hm : mapR Markdown.generateDetailedResultsMarkdown ?rs = Ok _,
          Hd : snd (displayAll ?rs) = Some _ |- _ =>
            rewrite (displayAll_after_markdown _ _ Hm) in Hd; discriminate Hd
        end;
    cbn [ended written stop];
    (split;
     [ intros [file H]; try discriminate H; split; reflexivity
     | intros [H1 H2]; try discriminate H1; try discriminate H2; eauto ]).
Qed.

(** X15. A write that fails is not fatal: with the rest of the world the
    same, the run ends the same way and sends the same requests whether
    the file can be written or not. *)
Theorem main_write_failure_is_not_fatal
    (e : Environment) (arg : option string) (config : result value)
    (answer : exchange) (start : Z) (ticks : list tick)
    (answers : list resultsAnswer) :
  ended (main (mkWorld e arg config answer start ticks answers false))
    = ended (main (mkWorld e arg config answer start ticks answers true)) /\
  requests (main (mkWorld e arg config answer start ticks answers false))
    = requests (main (mkWorld e arg config answer start ticks answers true)).
Proof.
  unfold main.
  cbn [environment summaryOutputArg configFile submitAnswer pollStart pollTicks
       resultsAnswers writeSucceeds].
  split_run; split; reflexivity.
Qed.



(** The report of the sample run, as written. *)
Example main_sample_report :
  written (main sampleWorld)
  = Some ("eval-summary.md",
          Str.join nl
            [ "## Summary";
              "";
              "| Eval Name | Total Records | Processed | Failed | Status | Total Cost |";
              "|-----------|---------------|-----------|--------|--------|------------|";
              "| N/A | 0 | 0 | 0 | completed | $0.5000 |";
              "";
              "## Detailed Results: e1";
              "";
              "### Record: r1";
              "";
              "| Step Name | Step Type | Model | Duration (ms) | Cost | Output Preview |";
              "|-----------|-----------|-------|---------------|------|----------------|";
              "| s1 | N/A | N/A | N/A | $0.5000 |  |";
              "";
              "" ]).
Proof. vm_compute. reflexivity. Qed.

(** A returned batch whose name cannot be converted: the results are
    fetched, the summary table throws, and the run ends with code 1 and
    without a file. *)
Example main_unprintable_eval_name :
  main (mkWorld localEnv None (Ok (VObj []))
          (HttpJson (VObj [ ("submissions", VArr [ submitted "b1" ]) ]))
          0
          [ (0, listing [ VObj [ ("batch_execution_id", VStr "b1");
                                 ("eval_name", unprintable);
                                 ("status", VStr "completed") ] ]) ]
          [ ResultsOk halfResults ]
          true)
  = mkRun (Exited 1)
      [ submitRequest localEnv (VObj []);
        batchesRequest localEnv;
        resultsRequest localEnv "b1" ]
      None.
Proof. vm_compute. reflexivity. Qed.

(* ----------------------------------------------------------------- *)
(** ** Whose results the table holds *)

(** Reading back what was assigned: the new entry under its key, the old
    entries under the other keys. *)
Lemma lookup_assign {A : Type} (k k' : string) (v : A) (m : list (string * A)) :
  lookup k (assign k' v m) = if String.eqb k k' then Some v else lookup k m.
Proof.
  induction m as [| [k'' v''] m IH]; simpl.
  - reflexivity.
  - destruct (String.eqb k' k'') eqn:E; simpl.
    + apply String.eqb_eq in E. subst k''.
      destruct (String.eqb k k'); reflexivity.
    + rewrite IH. destruct (String.eqb k k'') eqn:E2; [| reflexivity].
      apply String.eqb_eq in E2. subst k''.
      destruct (String.eqb k k') eqn:E3; [| reflexivity].
      apply String.eqb_eq in E3. subst k'. rewrite String.eqb_refl in E. discriminate.
Qed.

(** The own properties of the table after storing the results of a batch:
    the old ones, and at most the results under the id. *)
Lemma store_lookup (k id : string) (results r : ResultSet) (acc : Fetched)
    (sent : list request) :
  lookup k (detailedResultsMap (store id results acc sent)) = Some r ->
  lookup k (detailedResultsMap acc) = Some r \/ (k = id /\ r = results).
Proof.
  unfold store. destruct (isProto id && _); cbn [detailedResultsMap]; [now left |].
  rewrite lookup_assign. destruct (String.eqb k id) eqn:E; [| now left].
  apply String.eqb_eq in E. intros H. injection H as <-. now right.
Qed.

Lemma fetchResults_table (env : Environment) (batches : list value) :
  forall (answers : list resultsAnswer) (acc : Fetched) (k : string) (r : ResultSet),
    lookup k (detailedResultsMap (snd (fetchResults env batches answers acc))) = Some r ->
    lookup k (detailedResultsMap acc) = Some r \/
    ((exists batch : value,
        In batch batches /\ hasId batch = true /\ toStr (batchIdOf batch) = Ok k) /\
     In r (succeeded answers)).
Proof.
  induction batches as [| batch batches IH]; intros answers acc k r; cbn [fetchResults].
  - cbn. tauto.
  - destruct (nullish batch); [cbn; tauto |].
    destruct (truthy (batchIdOf batch)) eqn:Hid; cbn [negb].
    + destruct (toStr (batchIdOf batch)) as [id | e] eqn:Eid; [| cbn; tauto].
      destruct answers as [| [e | results] later]; [cbn; tauto | |]; intros H;
        apply IH in H as [H | [[b [Hb [Hb1 Hb2]]] Hr]].
      * cbn [detailedResultsMap] in H. now left.
      * right. split; [exists b; cbn [In]; tauto | exact Hr].
      * apply store_lookup in H as [H | [-> ->]]; [now left |].
        right. split.
        -- exists batch. unfold hasId. cbn [In]. auto.
        -- cbn. now left.
      * right. split; [exists b; cbn [In]; tauto | cbn; now right].
    + intros H. apply IH in H as [H | [[b [Hb [Hb1 Hb2]]] Hr]]; [now left |].
      right. split; [exists b; cbn [In]; tauto | exact Hr].
Qed.

(** X17. The table of detailed results, from which the summary takes the
    costs, holds under a key only results that the server sent in answer to
    a results request, and only under the id of a returned batch that has
    an id: a batch that was skipped, and a key no batch has, have no entry.
    When every request fails the table is empty and no detail table is
    kept. *)
Theorem fetchResults_keeps_fetched
    (env : Environment) (batches : list value) (answers : list resultsAnswer) :
  (forall (k : string) (r : ResultSet),
     lookup k (detailedResultsMap
                 (snd (fetchResults env batches answers (mkFetched [] [] None [])))) = Some r ->
     (exists batch : value,
        In batch batches /\ hasId batch = true /\ toStr (batchIdOf batch) = Ok k) /\
     In r (succeeded answers)) /\
  (succeeded answers = [] ->
   detailedResultsMap (snd (fetchResults env batches answers (mkFetched [] [] None []))) = [] /\
   detailedResults (snd (fetchResults env batches answers (mkFetched [] [] None []))) = []).
Proof.
  split.
  - intros k r H. apply fetchResults_table in H as [H | H]; [discriminate | exact H].
  - assert (Hgen : forall (bs : list value) (ans : list resultsAnswer) (acc : Fetched),
               succeeded ans = [] ->
               detailedResultsMap (snd (fetchResults env bs ans acc)) = detailedResultsMap acc /\
               detailedResults (snd (fetchResults env bs ans acc)) = detailedResults acc).
    { induction bs as [| b bs IH]; intros ans acc Hans; cbn [fetchResults]; [cbn; tauto |].
      destruct (nullish b); [cbn; tauto |].
      destruct (truthy (batchIdOf b)); cbn [negb]; [| now apply IH].
      destruct (toStr (batchIdOf b)) as [id | e]; [| cbn; tauto].
      destruct ans as [| [e | results] later]; [cbn; tauto | | discriminate].
      destruct (IH later (mkFetched (detailedResults acc) (detailedResultsMap acc)
                            (tablePrototype acc)
                            (resultsRequests acc ++ [ resultsRequest env id ])%list)
                  Hans) as [H1 H2].
      rewrite H1, H2. cbn. tauto. }
    intros Hans. destruct (Hgen batches answers (mkFetched [] [] None []) Hans). tauto.
Qed.

Lemma fetchResults_keeps_fetched_witness :
  detailedResultsMap
    (snd (fetchResults localEnv [ listed "b1" "completed"; listed "b2" "failed" ]
            [ ResultsFailed (FetchFailed "network");
              ResultsFailed (RequestFailed 500 "Internal Server Error" "") ]
            (mkFetched [] [] None []))) = [] /\
  detailedResults
    (snd (fetchResults localEnv [ listed "b1" "completed"; listed "b2" "failed" ]
            [ ResultsFailed (FetchFailed "network");
              ResultsFailed (RequestFailed 500 "Internal Server Error" "") ]
            (mkFetched [] [] None []))) = [].
Proof.
  apply (proj2 (fetchResults_keeps_fetched localEnv
                  [ listed "b1" "completed"; listed "b2" "failed" ]
                  [ ResultsFailed (FetchFailed "network");
                    ResultsFailed (RequestFailed 500 "Internal Server Error" "") ])).
  reflexivity.
Defined.

(** Results fetched for a batch whose id is the text [__proto__] become
    the prototype of the table: the table gets no entry, and the run is not
    followed into the summary. *)
Example fetchResults_proto_id :
  fetchResults localEnv [ listed "__proto__" "completed" ] [ ResultsOk halfResults ]
    (mkFetched [] [] None [])
  = (FetchDone,
     mkFetched [ halfResults ] [] (Some halfResults)
       [ resultsRequest localEnv "__proto__" ]) /\
  ended (main (mkWorld localEnv None (Ok (VObj []))
                 (HttpJson (VObj [ ("submissions", VArr [ submitted "__proto__" ]) ]))
                 0
                 [ (0, listing [ listed "__proto__" "completed" ]) ]
                 [ ResultsOk halfResults ]
                 true))
  = Beyond.
Proof. split; vm_compute; reflexivity. Qed.
